(** * Nearby Stays Finder: the prompt / completion / parsing contract

    A shallow embedding of [app.py]: the prompt builder
    [generate_stays_prompt], the completion client [get_gemini_response],
    the response parser [parse_stays_response], the renderer
    [display_stays] and the search action [main].

    Python strings are sequences of Unicode code points, so a [str] is a
    list of code points ([N]).  Streamlit calls are recorded as events of
    a trace; Python exceptions are values of [pyexn] carried by the
    outcome of a computation. *)

From Stdlib Require Import List NArith ZArith Bool Lia String Ascii DecimalString.
From Stdlib Require DecimalPos DecimalZ.
Import ListNotations.
Local Open Scope N_scope.
Set Warnings "-register-all".

(** ** Python strings *)

Module PyStr.

Definition char := N.
Definition pystr := list char.

(** An ASCII literal as a Python string. *)
Fixpoint py (s : string) : pystr :=
  match s with
  | EmptyString => []
  | String a r => N_of_ascii a :: py r
  end.

(** Same, with every apostrophe standing for a double quote (code 34),
    to write down texts that contain double quotes. *)
Definition dq : char := 34.
Definition pyq (s : string) : pystr :=
  map (fun c => if c =? 39 then dq else c) (py s).

Definition str_eqb (a b : pystr) : bool :=
  if list_eq_dec N.eq_dec a b then true else false.

(** [s.startswith(p)] *)
Fixpoint startswith (p s : pystr) : bool :=
  match p, s with
  | [], _ => true
  | _ :: _, [] => false
  | a :: p', b :: s' => (a =? b) && startswith p' s'
  end.

(** [sub in s] *)
Fixpoint occurs (sub s : pystr) : bool :=
  startswith sub s ||
  match s with
  | [] => false
  | _ :: s' => occurs sub s'
  end.

Definition contains (sub s : pystr) : Prop :=
  exists pre post, s = pre ++ sub ++ post.

(** [s.replace(old, new)] for a non-empty [old]: the occurrences of [old]
    are found from left to right and do not overlap.  [skip] counts the
    characters of the current occurrence that are still to be dropped. *)
Fixpoint replace_from (old new : pystr) (skip : nat) (s : pystr) : pystr :=
  match s with
  | [] => []
  | c :: s' =>
      match skip with
      | S k => replace_from old new k s'
      | O =>
          if startswith old s
          then new ++ replace_from old new (pred (List.length old)) s'
          else c :: replace_from old new O s'
      end
  end.

(** [s.replace("", new)] puts [new] before every character and at the end. *)
Fixpoint intersperse_all (new s : pystr) : pystr :=
  match s with
  | [] => new
  | c :: s' => new ++ c :: intersperse_all new s'
  end.

Definition replace (old new s : pystr) : pystr :=
  match old with
  | [] => intersperse_all new s
  | _ :: _ => replace_from old new O s
  end.

(** [str.isspace] on one code point: the characters [str.strip()]
    removes. *)
Definition isspace (c : char) : bool :=
  ((9 <=? c) && (c <=? 13)) || ((28 <=? c) && (c <=? 32)) ||
  (c =? 133) || (c =? 160) || (c =? 5760) ||
  ((8192 <=? c) && (c <=? 8202)) || (c =? 8232) || (c =? 8233) ||
  (c =? 8239) || (c =? 8287) || (c =? 12288).

Fixpoint lstrip (s : pystr) : pystr :=
  match s with
  | [] => []
  | c :: s' => if isspace c then lstrip s' else s
  end.

Definition rstrip (s : pystr) : pystr := rev (lstrip (rev s)).

(** [s.strip()] *)
Definition strip (s : pystr) : pystr := rstrip (lstrip s).

(** [sep.join(parts)] *)
Fixpoint join (sep : pystr) (parts : list pystr) : pystr :=
  match parts with
  | [] => []
  | [p] => p
  | p :: rest => p ++ sep ++ join sep rest
  end.

(** [str(n)] for an [int]. *)
Definition str_of_int (n : Z) : pystr :=
  py (NilZero.string_of_int (Z.to_int n)).

End PyStr.
Import PyStr.

(** ** Python values *)

Module PyVal.

(** A [float] is kept as what it was built from: one of the three
    constants the JSON decoder accepts, or the number lexeme handed to
    [float()].  The conversion to binary64 is not carried out. *)
Inductive pyfloat : Type :=
| FNaN
| FInfinity
| FNegInfinity
| FDec (lexeme : pystr).

(** The values [json.loads] can build.  A [dict] keeps its keys in
    insertion order, so it is an association list without repeated keys. *)
Inductive pyval : Type :=
| PyNone
| PyBool (b : bool)
| PyInt (z : Z)
| PyFloat (f : pyfloat)
| PyStr (s : pystr)
| PyList (l : list pyval)
| PyDict (d : list (pystr * pyval)).

Definition dict (V : Type) := list (pystr * V).

(** [d.get(k)] *)
Fixpoint dict_lookup {V} (d : dict V) (k : pystr) : option V :=
  match d with
  | [] => None
  | (k', v) :: r => if str_eqb k' k then Some v else dict_lookup r k
  end.

(** [d[k] = v]: an existing key keeps its place. *)
Fixpoint dict_set {V} (d : dict V) (k : pystr) (v : V) : dict V :=
  match d with
  | [] => [(k, v)]
  | (k', v') :: r =>
      if str_eqb k' k then (k', v) :: r else (k', v') :: dict_set r k v
  end.

Inductive pyexn : Type :=
| JSONDecodeError
| AttributeError
| TypeError
| ValueError
| OverflowError
| BackendException (message : pystr).

End PyVal.
Import PyVal.

(** ** [json.loads]

    The decoder of the standard library with its default settings (the
    C scanner of [_json], [strict=True], no hooks).  Every decoding
    failure is a [JSONDecodeError]; the message and position are not
    kept.  Limits of the interpreter (recursion depth, the digit limit
    of [int], memory) are not part of the model. *)

Module Json.

Definition is_ws (c : char) : bool :=
  (c =? 32) || (c =? 9) || (c =? 10) || (c =? 13).

Fixpoint skip_ws (s : pystr) : pystr :=
  match s with
  | [] => []
  | c :: s' => if is_ws c then skip_ws s' else s
  end.

Definition is_digit (c : char) : bool := (48 <=? c) && (c <=? 57).

Definition hex_digit (c : char) : option N :=
  if is_digit c then Some (c - 48)
  else if (97 <=? c) && (c <=? 102) then Some (c - 87)
  else if (65 <=? c) && (c <=? 70) then Some (c - 55)
  else None.

Definition hex4 (a b c d : char) : option N :=
  match hex_digit a, hex_digit b, hex_digit c, hex_digit d with
  | Some x, Some y, Some z, Some w => Some (((x * 16 + y) * 16 + z) * 16 + w)
  | _, _, _, _ => None
  end.

Definition is_high_surrogate (u : N) : bool := (55296 <=? u) && (u <=? 56319).
Definition is_low_surrogate (u : N) : bool := (56320 <=? u) && (u <=? 57343).
Definition join_surrogates (hi lo : N) : N :=
  65536 + N.lor (N.shiftl (N.land hi 1023) 10) (N.land lo 1023).

(** The character a one-letter backslash escape stands for. *)
Definition unescape (e : char) : option char :=
  if (e =? 34) || (e =? 92) || (e =? 47) then Some e
  else if e =? 98 then Some 8
  else if e =? 102 then Some 12
  else if e =? 110 then Some 10
  else if e =? 114 then Some 13
  else if e =? 116 then Some 9
  else None.

Definition push (c : char) (r : option (pystr * pystr)) : option (pystr * pystr) :=
  match r with
  | Some (str, rest) => Some (c :: str, rest)
  | None => None
  end.

(** [scanstring]: [s] starts just after the opening quote; the result is
    the decoded string and the text after the closing quote. *)
Fixpoint scanstring (s : pystr) : option (pystr * pystr) :=
  match s with
  | [] => None
  | c :: s1 =>
      if c =? 34 then Some ([], s1)
      else if c =? 92 then
        match s1 with
        | [] => None
        | e :: s2 =>
            if e =? 117 then
              match s2 with
              | h1 :: h2 :: h3 :: h4 :: s3 =>
                  match hex4 h1 h2 h3 h4 with
                  | None => None
                  | Some u =>
                      if is_high_surrogate u then
                        match s3 with
                        | b :: u' :: l1 :: l2 :: l3 :: l4 :: s4 =>
                            if (b =? 92) && (u' =? 117) then
                              match hex4 l1 l2 l3 l4 with
                              | None => None
                              | Some u2 =>
                                  if is_low_surrogate u2
                                  then push (join_surrogates u u2) (scanstring s4)
                                  else push u (scanstring s3)
                              end
                            else push u (scanstring s3)
                        | _ => push u (scanstring s3)
                        end
                      else push u (scanstring s3)
                  end
              | _ => None
              end
            else
              match unescape e with
              | Some c' => push c' (scanstring s2)
              | None => None
              end
        end
      else if c <=? 31 then None
      else push c (scanstring s1)
  end.

Fixpoint span_digits (s : pystr) : pystr * pystr :=
  match s with
  | [] => ([], [])
  | c :: s' =>
      if is_digit c
      then let (d, r) := span_digits s' in (c :: d, r)
      else ([], s)
  end.

(** [0|[1-9][0-9]*] *)
Definition match_integer (s : pystr) : option (pystr * pystr) :=
  match s with
  | [] => None
  | c :: s' =>
      if c =? 48 then Some ([c], s')
      else if is_digit c then let (d, r) := span_digits s' in Some (c :: d, r)
      else None
  end.

(** [\.[0-9]+] *)
Definition match_frac (s : pystr) : option (pystr * pystr) :=
  match s with
  | p :: c :: s' =>
      if (p =? 46) && is_digit c
      then let (d, r) := span_digits s' in Some (p :: c :: d, r)
      else None
  | _ => None
  end.

(** [[eE][-+]?[0-9]+] *)
Definition match_exp (s : pystr) : option (pystr * pystr) :=
  match s with
  | [] => None
  | e :: s' =>
      if (e =? 101) || (e =? 69) then
        let (sign, s'') :=
          match s' with
          | c :: t => if (c =? 43) || (c =? 45) then ([c], t) else ([], s')
          | [] => ([], s')
          end in
        match span_digits s'' with
        | ([], _) => None
        | (d, r) => Some (e :: sign ++ d, r)
        end
      else None
  end.

(** [int(digits)] for a run of ASCII digits. *)
Definition int_of_digits (d : pystr) : Z :=
  fold_left (fun acc c => (acc * 10 + Z.of_N (c - 48))%Z) d 0%Z.

(** A JSON number at the head of [s]: an [int] when there is neither a
    fraction nor an exponent, else the [float] of the whole lexeme. *)
Definition match_number (s : pystr) : option (pyval * pystr) :=
  let (neg, s1) :=
    match s with
    | c :: t => if c =? 45 then (true, t) else (false, s)
    | [] => (false, s)
    end in
  match match_integer s1 with
  | None => None
  | Some (ip, s2) =>
      let (fr, s3) :=
        match match_frac s2 with Some (f, r) => (f, r) | None => ([], s2) end in
      let (ex, s4) :=
        match match_exp s3 with Some (x, r) => (x, r) | None => ([], s3) end in
      let sign := if neg then [45] else [] in
      match fr, ex with
      | [], [] =>
          Some (PyInt (if neg then - int_of_digits ip else int_of_digits ip)%Z, s4)
      | _, _ => Some (PyFloat (FDec (sign ++ ip ++ fr ++ ex)), s4)
      end
  end.

Inductive scan_result : Type :=
| OutOfFuel
| Stop
| Scanned (v : pyval) (rest : pystr).

(** [scan_once] with the loops of [_parse_array] and [_parse_object].
    [array_items] starts at an element, [object_items] at the quote of a
    key; both carry what was built so far. *)
Fixpoint scan_once (fuel : nat) (s : pystr) {struct fuel} : scan_result :=
  match fuel with
  | O => OutOfFuel
  | S f =>
      match s with
      | [] => Stop
      | c :: r =>
          if c =? 34 then
            match scanstring r with
            | Some (str, rest) => Scanned (PyStr str) rest
            | None => Stop
            end
          else if c =? 123 then
            match skip_ws r with
            | c' :: r' =>
                if c' =? 125 then Scanned (PyDict []) r'
                else object_items f [] (c' :: r')
            | [] => Stop
            end
          else if c =? 91 then
            match skip_ws r with
            | c' :: r' =>
                if c' =? 93 then Scanned (PyList []) r'
                else array_items f [] (c' :: r')
            | [] => Stop
            end
          else if startswith (py "null") s then Scanned PyNone (skipn 4 s)
          else if startswith (py "true") s then Scanned (PyBool true) (skipn 4 s)
          else if startswith (py "false") s then Scanned (PyBool false) (skipn 5 s)
          else if startswith (py "NaN") s then Scanned (PyFloat FNaN) (skipn 3 s)
          else if startswith (py "Infinity") s
               then Scanned (PyFloat FInfinity) (skipn 8 s)
          else if startswith (py "-Infinity") s
               then Scanned (PyFloat FNegInfinity) (skipn 9 s)
          else
            match match_number s with
            | Some (v, rest) => Scanned v rest
            | None => Stop
            end
      end
  end

with array_items (fuel : nat) (acc : list pyval) (s : pystr) {struct fuel}
  : scan_result :=
  match fuel with
  | O => OutOfFuel
  | S f =>
      match scan_once f s with
      | Scanned v rest =>
          match skip_ws rest with
          | c :: r =>
              if c =? 93 then Scanned (PyList (rev (v :: acc))) r
              else if c =? 44 then array_items f (v :: acc) (skip_ws r)
              else Stop
          | [] => Stop
          end
      | other => other
      end
  end

with object_items (fuel : nat) (acc : dict pyval) (s : pystr) {struct fuel}
  : scan_result :=
  match fuel with
  | O => OutOfFuel
  | S f =>
      match s with
      | [] => Stop
      | q :: r =>
          if q =? 34 then
            match scanstring r with
            | None => Stop
            | Some (key, rest) =>
                match skip_ws rest with
                | c :: r2 =>
                    if c =? 58 then
                      match scan_once f (skip_ws r2) with
                      | Scanned v rest2 =>
                          match skip_ws rest2 with
                          | c2 :: r3 =>
                              if c2 =? 125
                              then Scanned (PyDict (dict_set acc key v)) r3
                              else if c2 =? 44
                              then object_items f (dict_set acc key v) (skip_ws r3)
                              else Stop
                          | [] => Stop
                          end
                      | other => other
                      end
                    else Stop
                | [] => Stop
                end
            end
          else Stop
      end
  end.

(** [json.loads(s)] for a [str]: a byte order mark is refused, white
    space around the one value is skipped, anything after it is "Extra
    data".  The fuel is enough for every text ([scan_once_fuel]), so the
    [OutOfFuel] branch is never taken.  The decoder is modelled without
    the limits of the interpreter on the digits of an [int] and on the
    depth of the nesting. *)
Definition json_loads (s : pystr) : pyexn + pyval :=
  if startswith [65279] s then inl JSONDecodeError
  else
    match scan_once (S (2 * List.length s)) (skip_ws s) with
    | Scanned v rest =>
        match skip_ws rest with
        | [] => inr v
        | _ :: _ => inl JSONDecodeError
        end
    | Stop => inl JSONDecodeError
    | OutOfFuel => inl JSONDecodeError
    end.

(** What a result of the scanner has to satisfy: it is not [OutOfFuel],
    and a value was read from at least one character. *)
Definition progress (r : scan_result) (s : pystr) : Prop :=
  match r with
  | OutOfFuel => False
  | Stop => True
  | Scanned _ rest => (List.length rest < List.length s)%nat
  end.

Definition fuel_ok (fuel : nat) : Prop :=
  (forall s, (2 * List.length s < fuel)%nat -> progress (scan_once fuel s) s) /\
  (forall acc s, (2 * List.length s + 1 < fuel)%nat ->
                 progress (array_items fuel acc s) s) /\
  (forall acc s, (2 * List.length s + 1 < fuel)%nat ->
                 progress (object_items fuel acc s) s).

End Json.
Import Json.

(** ** Effects: the Streamlit calls and the calls to the backend

    A computation yields the trace of what it did and either a value or
    the exception that escaped it. *)

Module Ui.

Inductive event : Type :=
| StError (message : pystr)
| StWarning (message : pystr)
| StInfo (message : pystr)
| StTextInput
| StButton
| StSuccess (message : pystr)
| StSpinner (message : pystr)
| StContainer
| StColumns
| StSubheader (body : pyval)
(** [st.caption]: the type and the distance of one stay *)
| StCaption (ty distance : pyval)
(** [st.write] of the rating line: [stars] stars, then the rating *)
| StWriteRating (stars : Z) (rating : pyval)
| StWrite (body : pyval)
| StMarkdown (body : pystr)
| StMetric (label : pystr) (value : pyval)
| StDivider
(** [genai.configure(api_key=key)] *)
| GenaiConfigure (key : pystr)
(** [model.generate_content(prompt, ...)]: the one call to the backend *)
| GenerateContent (prompt : pystr).

Definition ui (A : Type) : Type := list event * (pyexn + A).

Definition ret {A} (x : A) : ui A := ([], inr x).
Definition raise {A} (e : pyexn) : ui A := ([], inl e).
Definition emit (ev : event) : ui unit := ([ev], inr tt).

Definition bind {A B} (m : ui A) (f : A -> ui B) : ui B :=
  match m with
  | (t, inl e) => (t, inl e)
  | (t, inr a) => let (t', r) := f a in (t ++ t', r)
  end.

(** A Python value or exception as a computation without events. *)
Definition lift {A} (r : pyexn + A) : ui A := ([], r).

Definition trace {A} (m : ui A) : list event := fst m.
Definition outcome {A} (m : ui A) : pyexn + A := snd m.

End Ui.
Import Ui.

Declare Scope ui_scope.
Delimit Scope ui_scope with ui.
Notation "x <- m ;; k" := (bind m (fun x => k))
  (at level 61, m at next level, right associativity) : ui_scope.
Notation "m ;; k" := (bind m (fun _ => k))
  (at level 61, right associativity) : ui_scope.

(** ** The application *)

Module App.
Local Open Scope ui_scope.

(** The literal substrings marking a fenced JSON block. *)
Definition fence_open : pystr := py "```json".
Definition fence_close : pystr := py "```".

Definition nl : pystr := [10].

(** The text of the prompt after its first sentence. *)
Definition prompt_tail : pystr :=
  py "    " ++ nl ++
  py "    Strictly return a JSON array of objects. Do not include markdown formatting like ```json ... ```." ++ nl ++
  py "    " ++ nl ++
  py "    Each object must have:" ++ nl ++
  pyq "    - 'name': string" ++ nl ++
  pyq "    - 'type': string (e.g. Hotel, Hostel, Resort)" ++ nl ++
  pyq "    - 'distance_km': number (estimated)" ++ nl ++
  pyq "    - 'price_range': string (e.g. '$', '$$', '$$$')" ++ nl ++
  pyq "    - 'rating': number (0-5)" ++ nl ++
  pyq "    - 'amenities': list of strings (max 5 items)" ++ nl ++
  pyq "    - 'description': string (short marketing blurb)" ++ nl ++
  py "    ".

Definition generate_stays_prompt (location : pystr) (radius max_results : Z)
  : pystr :=
  nl ++ py "    Act as a travel specialist. Find " ++ str_of_int max_results ++
  py " accommodation options around " ++ [dq] ++ location ++ [dq] ++
  py " within " ++ str_of_int radius ++ py " km." ++ nl ++ prompt_tail.

(** The first statement of the [try] block of [parse_stays_response]. *)
Definition strip_fences (response_text : pystr) : pystr :=
  replace fence_close [] (replace fence_open [] response_text).

Definition clean_text (response_text : pystr) : pystr :=
  strip (strip_fences response_text).

Definition parse_stays_response (response_text : pystr) : ui pyval :=
  match json_loads (clean_text response_text) with
  | inr v => ret v
  | inl JSONDecodeError =>
      emit (StError (py "Failed to parse AI response. Please try again.")) ;;
      ret (PyList [])
  | inl e => raise e
  end.

(** What the annotation [List[Dict]] of [parse_stays_response] and the
    loop of [display_stays] expect: a list whose elements are dicts. *)
Definition is_dict (v : pyval) : bool :=
  match v with PyDict _ => true | _ => false end.

Definition is_stay_collection (v : pyval) : bool :=
  match v with PyList l => forallb is_dict l | _ => false end.

(** The outside of [app.py]: the credential read from the environment,
    the two sliders, and the behaviour of the [genai] client. *)
Inductive reply : Type :=
| Text (text : pystr)
| Raises (message : pystr).

Record world : Type := {
  GEMINI_API_KEY : option pystr;
  radius : Z;
  max_results : Z;
  (** the message of the exception [genai.configure] or
      [genai.GenerativeModel] raises, if any *)
  configure_error : option pystr;
  (** [model.generate_content(prompt, ...).text] *)
  generate_content : pystr -> reply
}.

(** Three conversions of the interpreter that are left open: the truth
    value of [float(lexeme)], [int(float(lexeme))], and [int(s)] for a
    [str] ([None] when it raises [ValueError]). *)
Record builtins : Type := {
  float_nonzero : pystr -> bool;
  int_of_float : pystr -> pyexn + Z;
  int_of_str : pystr -> option Z
}.

Inductive model : Type := GenerativeModel (name : pystr).

Definition nonempty (s : pystr) : bool :=
  match s with [] => false | _ :: _ => true end.

(** [bool(GEMINI_API_KEY)] *)
Definition key_present (W : world) : bool :=
  match GEMINI_API_KEY W with
  | Some k => nonempty k
  | None => false
  end.

Definition configure_gemini (W : world) : ui (option model) :=
  match GEMINI_API_KEY W with
  | Some ((_ :: _) as key) =>
      emit (GenaiConfigure key) ;;
      match configure_error W with
      | None => ret (Some (GenerativeModel (py "gemini-2.5-flash")))
      | Some e =>
          emit (StError (py "Error configuring Gemini: " ++ e)) ;; ret None
      end
  | _ =>
      emit (StError (py "API key not configured. Please check your .env file.")) ;;
      ret None
  end.

Definition get_gemini_response (W : world) (m : model) (prompt : pystr)
  : ui (option pystr) :=
  emit (GenerateContent prompt) ;;
  match generate_content W prompt with
  | Text text => ret (Some text)
  | Raises e => emit (StError (py "API Error: " ++ e)) ;; ret None
  end.

Section Display.
Variable B : builtins.

(** [bool(v)] *)
Definition truthy (v : pyval) : bool :=
  match v with
  | PyNone => false
  | PyBool b => b
  | PyInt z => negb (z =? 0)%Z
  | PyFloat (FDec lexeme) => float_nonzero B lexeme
  | PyFloat _ => true
  | PyStr s => nonempty s
  | PyList l => match l with [] => false | _ :: _ => true end
  | PyDict d => match d with [] => false | _ :: _ => true end
  end.

(** [len(v)] *)
Definition py_len (v : pyval) : pyexn + Z :=
  match v with
  | PyStr s => inr (Z.of_nat (List.length s))
  | PyList l => inr (Z.of_nat (List.length l))
  | PyDict d => inr (Z.of_nat (List.length d))
  | _ => inl TypeError
  end.

(** The items a [for] loop over [v] visits. *)
Definition py_iter (v : pyval) : pyexn + list pyval :=
  match v with
  | PyStr s => inr (map (fun c => PyStr [c]) s)
  | PyList l => inr l
  | PyDict d => inr (map (fun kv => PyStr (fst kv)) d)
  | _ => inl TypeError
  end.

(** [v.get(key, default)] *)
Definition py_get (v : pyval) (key : pystr) (default : pyval) : pyexn + pyval :=
  match v with
  | PyDict d =>
      match dict_lookup d key with
      | Some x => inr x
      | None => inr default
      end
  | _ => inl AttributeError
  end.

(** [int(v)] *)
Definition py_int (v : pyval) : pyexn + Z :=
  match v with
  | PyInt z => inr z
  | PyBool b => inr (if b then 1 else 0)%Z
  | PyFloat FNaN => inl ValueError
  | PyFloat FInfinity => inl OverflowError
  | PyFloat FNegInfinity => inl OverflowError
  | PyFloat (FDec lexeme) => int_of_float B lexeme
  | PyStr s =>
      match int_of_str B s with
      | Some z => inr z
      | None => inl ValueError
      end
  | _ => inl TypeError
  end.

Fixpoint all_str (l : list pyval) : option (list pystr) :=
  match l with
  | [] => Some []
  | PyStr s :: r =>
      match all_str r with
      | Some ss => Some (s :: ss)
      | None => None
      end
  | _ :: _ => None
  end.

(** [sep.join(v)] *)
Definition py_join (sep : pystr) (v : pyval) : pyexn + pystr :=
  match py_iter v with
  | inl e => inl e
  | inr items =>
      match all_str items with
      | Some ss => inr (join sep ss)
      | None => inl TypeError
      end
  end.

(** The body of the loop of [display_stays], for the stay of index [i]
    among [n].  What is modelled of a line is what it reads and what can
    fail in reading it ([.get], [int()], [join]); the repetition of the
    star by [int(rating)], the formatting of the fields and the checks
    Streamlit makes on what it is given are not, so a statement that a
    display completes bounds the rating and types the fields itself
    ([conforming_stay]). *)
Definition display_stay (n i : Z) (stay : pyval) : ui unit :=
  emit StContainer ;;
  emit StColumns ;;
  name <- lift (py_get stay (py "name") (PyStr (py "Unknown Stay"))) ;;
  emit (StSubheader name) ;;
  ty <- lift (py_get stay (py "type") (PyStr (py "Hotel"))) ;;
  distance <- lift (py_get stay (py "distance_km") (PyInt 0)) ;;
  emit (StCaption ty distance) ;;
  rating <- lift (py_get stay (py "rating") (PyInt 0)) ;;
  stars <- lift (py_int rating) ;;
  emit (StWriteRating stars rating) ;;
  description <- lift (py_get stay (py "description") (PyStr [])) ;;
  emit (StWrite description) ;;
  amenities <- lift (py_get stay (py "amenities") (PyList [])) ;;
  (if truthy amenities then
     joined <- lift (py_join ([32; 8226; 32]) amenities) ;;
     emit (StWrite (PyStr (py "**Amenities:** " ++ joined)))
   else ret tt) ;;
  emit (StMarkdown (py "###")) ;;
  price <- lift (py_get stay (py "price_range") (PyStr (py "N/A"))) ;;
  emit (StMetric (py "Price") price) ;;
  if (i <? n - 1)%Z then emit StDivider else ret tt.

Fixpoint for_enumerate (body : Z -> pyval -> ui unit) (i : Z) (items : list pyval)
  : ui unit :=
  match items with
  | [] => ret tt
  | x :: rest => body i x ;; for_enumerate body (i + 1)%Z rest
  end.

Definition display_stays (stays : pyval) (location : pystr) : ui unit :=
  n <- lift (py_len stays) ;;
  emit (StSuccess (py "Found " ++ str_of_int n ++ py " stays near " ++ location)) ;;
  items <- lift (py_iter stays) ;;
  for_enumerate (display_stay n) 0%Z items.

(** [main()], for the value of the text field and the state of the
    button. *)
Definition main (W : world) (search_clicked : bool) (location : pystr)
  : ui unit :=
  emit StColumns ;;
  emit StTextInput ;;
  emit (StMarkdown (py "###")) ;;
  emit StButton ;;
  if search_clicked && nonempty location then
    if negb (key_present W) then
      emit (StError (10060 :: py " API key missing."))
    else
      emit (StSpinner (128269 :: py " AI is scanning for stays in " ++
                       location ++ py "...")) ;;
      m <- configure_gemini W ;;
      match m with
      | None => ret tt
      | Some m =>
          let prompt :=
            generate_stays_prompt location (radius W) (max_results W) in
          raw_response <- get_gemini_response W m prompt ;;
          match raw_response with
          | Some ((_ :: _) as text) =>
              stays_data <- parse_stays_response text ;;
              if truthy stays_data
              then display_stays stays_data location
              else emit (StWarning (py "No data returned. Try a different location."))
          | _ => ret tt
          end
      end
  else if negb (nonempty location) then
    emit (StInfo (128161 :: py " **Try searching for:** Kyoto, Downtown Chicago, Paris Latin Quarter"))
  else ret tt.

End Display.

(** The backend was called. *)
Definition is_backend_call (ev : event) : bool :=
  match ev with GenerateContent _ => true | _ => false end.

(** A computation signals a failure when an exception is its outcome. *)
Definition signals_failure {A} (m : ui A) : Prop :=
  exists e, outcome m = inl e.

(** A text free of the markers of a fenced JSON block. *)
Definition fence_free (s : pystr) : Prop :=
  ~ contains fence_open s /\ ~ contains fence_close s.

(** A world whose credential is set and whose backend answers every
    prompt with [response]. *)
Definition world_replying (response : pystr) : world :=
  {| GEMINI_API_KEY := Some (py "secret");
     radius := 10;
     max_results := 8;
     configure_error := None;
     generate_content := fun _ => Text response |}.

(** The same world without the credential. *)
Definition world_without_key (response : pystr) : world :=
  {| GEMINI_API_KEY := None;
     radius := 10;
     max_results := 8;
     configure_error := None;
     generate_content := fun _ => Text response |}.

(** One choice of the conversions left open, to run [main] on examples. *)
Definition sample_builtins : builtins :=
  {| float_nonzero := fun _ => true;
     int_of_float := fun _ => inr 0%Z;
     int_of_str := fun _ => None |}.

End App.
Import App.

(** ** Vocabulary for the properties of the renderer and the page *)

Module Page.

(** [d.get(key, default)] on the association list of a dict. *)
Definition get_or (d : dict pyval) (key : pystr) (default : pyval) : pyval :=
  match dict_lookup d key with
  | Some x => x
  | None => default
  end.

Definition is_ok {A} (r : pyexn + A) : bool :=
  match r with inr _ => true | inl _ => false end.

Definition is_str (v : pyval) : bool :=
  match v with PyStr _ => true | _ => false end.

(** The separator of the amenities line. *)
Definition bullet : pystr := [32; 8226; 32].

(** What one pass of the loop of [display_stays] needs of its item: a
    dict whose rating [int()] accepts and whose amenities are falsy or
    can be joined. *)
Definition renders (B : builtins) (stay : pyval) : bool :=
  match stay with
  | PyDict d =>
      is_ok (py_int B (get_or d (py "rating") (PyInt 0))) &&
      (negb (truthy B (get_or d (py "amenities") (PyList []))) ||
       is_ok (py_join bullet (get_or d (py "amenities") (PyList []))))
  | _ => false
  end.

(** A field of a record that is missing, or present with a value that
    [ok] accepts. *)
Definition opt_field (d : dict pyval) (key : pystr) (ok : pyval -> bool) : bool :=
  match dict_lookup d key with
  | None => true
  | Some v => ok v
  end.

(** A code point that stands for a character: a Unicode scalar value,
    so no surrogate and nothing past U+10FFFF. *)
Definition scalar_value (c : char) : bool :=
  (c <? 55296) || ((57343 <? c) && (c <? 1114112)).

(** A [str] made of characters. *)
Definition is_text (v : pyval) : bool :=
  match v with PyStr s => forallb scalar_value s | _ => false end.

Definition is_text_list (v : pyval) : bool :=
  match v with PyList l => forallb is_text l | _ => false end.

(** A distance: a [float], or an [int] below a million in absolute
    value. *)
Definition is_distance (v : pyval) : bool :=
  match v with
  | PyInt z => (Z.abs z <? 1000000)%Z
  | PyFloat _ => true
  | _ => false
  end.

(** A rating between 0 and 5: an [int], or a [float] that [int()]
    converts to one. *)
Definition is_rating (B : builtins) (v : pyval) : bool :=
  match v with
  | PyInt z => (0 <=? z)%Z && (z <=? 5)%Z
  | PyFloat (FDec lexeme) =>
      match int_of_float B lexeme with
      | inr z => (0 <=? z)%Z && (z <=? 5)%Z
      | inl _ => false
      end
  | _ => false
  end.

(** A record as the prompt asks for it: every one of the seven fields
    is missing or of its type (name, type, price_range and description
    strings of characters, distance_km a distance, rating a rating,
    amenities a list of strings of characters).  Other keys are free. *)
Definition conforming_stay (B : builtins) (stay : pyval) : bool :=
  match stay with
  | PyDict d =>
      opt_field d (py "name") is_text &&
      opt_field d (py "type") is_text &&
      opt_field d (py "distance_km") is_distance &&
      opt_field d (py "rating") (is_rating B) &&
      opt_field d (py "description") is_text &&
      opt_field d (py "amenities") is_text_list &&
      opt_field d (py "price_range") is_text
  | _ => false
  end.

(** The card of one stay alone: what the loop of [display_stays] draws
    for it when it is the only one, so without a divider. *)
Definition card (B : builtins) (stay : pyval) : list event :=
  trace (display_stay B 1 0 stay).

(** [cards] one after the other, with [sep] between two of them. *)
Fixpoint between (sep : list event) (cards : list (list event)) : list event :=
  match cards with
  | [] => []
  | [c] => c
  | c :: rest => c ++ sep ++ between sep rest
  end.

(** Vocabulary for the removal of the markers: a text without a
    backtick, and a text that does not start with one. *)
Definition backtick_free (p : pystr) : bool :=
  forallb (fun c => negb (c =? 96)) p.

Definition no_backtick_head (q : pystr) : bool :=
  match q with
  | [] => true
  | c :: _ => negb (c =? 96)
  end.

(** A character that stands for itself inside a JSON string: no
    control character, no quote and no backslash. *)
Definition string_char (c : char) : bool :=
  (32 <=? c) && negb (c =? 34) && negb (c =? 92).

Definition plain_char (c : char) : bool :=
  string_char c && negb (c =? 96).

(** The JSON text of an array that holds one string, written with the
    characters [t] between the quotes. *)
Definition string_array (t : pystr) : pystr := pyq "['" ++ t ++ pyq "']".

(** What [display_stays] needs of its argument: a list of items that
    render, or an empty string or dict (nothing to loop over). *)
Definition displayable (B : builtins) (stays : pyval) : bool :=
  match stays with
  | PyList l => forallb (renders B) l
  | PyStr [] => true
  | PyDict [] => true
  | _ => false
  end.

(** The card of a dict: what is drawn before the rating line, and what
    is drawn after the amenities for the stay of index [i] among [n]. *)
Definition card_head (d : dict pyval) : list event :=
  [StContainer; StColumns;
   StSubheader (get_or d (py "name") (PyStr (py "Unknown Stay")));
   StCaption (get_or d (py "type") (PyStr (py "Hotel")))
             (get_or d (py "distance_km") (PyInt 0))].

Definition card_tail (n i : Z) (d : dict pyval) : list event :=
  [StMarkdown (py "###");
   StMetric (py "Price") (get_or d (py "price_range") (PyStr (py "N/A")))] ++
  (if (i <? n - 1)%Z then [StDivider] else []).

(** The seven keys [display_stays] reads. *)
Definition stay_keys : list pystr :=
  [py "name"; py "type"; py "distance_km"; py "rating"; py "description";
   py "amenities"; py "price_range"].

(** The events [display_stays] may emit. *)
Definition is_display_event (ev : event) : bool :=
  match ev with
  | StSuccess _ | StContainer | StColumns | StSubheader _ | StCaption _ _
  | StWriteRating _ _ | StWrite _ | StMarkdown _ | StMetric _ _ | StDivider => true
  | _ => false
  end.

Definition is_card (ev : event) : bool :=
  match ev with StContainer => true | _ => false end.

Definition is_divider (ev : event) : bool :=
  match ev with StDivider => true | _ => false end.

Definition is_configure_call (ev : event) : bool :=
  match ev with GenaiConfigure _ => true | _ => false end.

(** The widgets [main] draws before it looks at the button. *)
Definition widgets : list event :=
  [StColumns; StTextInput; StMarkdown (py "###"); StButton].

Definition hint : event :=
  StInfo (128161 :: py " **Try searching for:** Kyoto, Downtown Chicago, Paris Latin Quarter").

Definition spinner (location : pystr) : event :=
  StSpinner (128269 :: py " AI is scanning for stays in " ++ location ++ py "...").

Definition no_data : event :=
  StWarning (py "No data returned. Try a different location.").

Definition parse_failed : event :=
  StError (py "Failed to parse AI response. Please try again.").

Definition missing_key : event := StError (10060 :: py " API key missing.").

Definition unconfigured_key : event :=
  StError (py "API key not configured. Please check your .env file.").

Definition configure_failed (e : pystr) : event :=
  StError (py "Error configuring Gemini: " ++ e).

Definition api_failed (e : pystr) : event := StError (py "API Error: " ++ e).

Definition found (n : Z) (location : pystr) : event :=
  StSuccess (py "Found " ++ str_of_int n ++ py " stays near " ++ location).

(** [ev] is the error notice with text [message]. *)
Definition is_error (message : pystr) (ev : event) : bool :=
  match ev with
  | StError m => str_eqb m message
  | _ => false
  end.

(** What a search has done once the backend was called: the widgets,
    the spinner, the configuration of the client and the one request. *)
Definition search_prefix (W : world) (key location : pystr) : list event :=
  widgets ++
  [spinner location; GenaiConfigure key;
   GenerateContent (generate_stays_prompt location (radius W) (max_results W))].

(** A world whose credential is set and whose backend raises on every
    request. *)
Definition world_raising (message : pystr) : world :=
  {| GEMINI_API_KEY := Some (py "secret");
     radius := 10;
     max_results := 8;
     configure_error := None;
     generate_content := fun _ => Raises message |}.

(** A world whose credential is set and whose client cannot be
    configured. *)
Definition world_misconfigured (message : pystr) : world :=
  {| GEMINI_API_KEY := Some (py "secret");
     radius := 10;
     max_results := 8;
     configure_error := Some message;
     generate_content := fun _ => Text [] |}.

(** The sidebar of the page (the block under [with st.sidebar]).  The
    two sliders start at the defaults read from the environment. *)
Inductive sidebar_event : Type :=
| Drawn (ev : event)
| StHeader (body : pystr)
| StSlider (label : pystr) (min_value max_value value : Z)
| StCaptionText (body : pystr).

Record defaults : Type := {
  DEFAULT_RADIUS : Z;
  DEFAULT_MAX_RESULTS : Z
}.

Definition key_loaded : event := StSuccess (9989 :: py " API key loaded").

Definition sidebar (D : defaults) (W : world) : list sidebar_event :=
  [StHeader (py "Settings")] ++
  (if key_present W
   then [Drawn key_loaded]
   else [Drawn (StError (10060 :: py " API key missing"));
         Drawn (StInfo (py "Add GEMINI_API_KEY to your .env file"))]) ++
  [Drawn StDivider;
   Drawn (StSubheader (PyStr (py "Search Parameters")));
   StSlider (py "Search Radius (km)") 1 50 (DEFAULT_RADIUS D);
   StSlider (py "Max Results") 1 20 (DEFAULT_MAX_RESULTS D);
   Drawn StDivider;
   StCaptionText ([9888; 65039] ++ py " **Disclaimer:** This tool uses AI. Prices, ratings, and availability are estimates and may not be real-time. Always verify with booking platforms.")].

(** The sidebar shows that the key was loaded. *)
Definition is_loaded_indicator (sev : sidebar_event) : bool :=
  match sev with
  | Drawn (StSuccess m) => str_eqb m (9989 :: py " API key loaded")
  | _ => false
  end.

End Page.
Import Page.

(** ** Facts about the string operations *)

Module PyStrFacts.

Lemma startswith_app (p s t : pystr) :
  startswith p s = true -> startswith p (s ++ t) = true.
Proof.
  revert s; induction p as [|a p IH]; intros [|b s]; simpl; try easy.
  intro H; apply andb_true_iff in H as [Hab Hp].
  now rewrite Hab, (IH s Hp).
Qed.

Lemma startswith_incl (p s : pystr) :
  startswith p s = true -> incl p s.
Proof.
  revert s; induction p as [|a p IH]; intros s H x Hx; [destruct Hx|].
  destruct s as [|b s]; [discriminate H|]. simpl in H.
  apply andb_true_iff in H as [Hab Hp]. apply N.eqb_eq in Hab; subst b.
  destruct Hx as [<-|Hx]; [now left | right; now apply (IH s Hp)].
Qed.

Lemma startswith_length (p s : pystr) :
  startswith p s = true -> (List.length p <= List.length s)%nat.
Proof.
  revert s; induction p as [|a p IH]; intros [|b s]; simpl; try easy; try lia.
  intro H; apply andb_true_iff in H as [_ Hp]. apply IH in Hp; lia.
Qed.

Lemma startswith_split (p s : pystr) :
  startswith p s = true -> exists t, s = p ++ t.
Proof.
  revert s; induction p as [|a p IH]; intros s H; [now exists s|].
  destruct s as [|b s]; [discriminate H|]. simpl in H.
  apply andb_true_iff in H as [Hab Hp]. apply N.eqb_eq in Hab; subst b.
  destruct (IH s Hp) as [t ->]. now exists t.
Qed.

Lemma startswith_self_app (p t : pystr) : startswith p (p ++ t) = true.
Proof.
  induction p as [|a p IH]; simpl; [easy|]. now rewrite N.eqb_refl, IH.
Qed.

Lemma last_In (d : char) (l : pystr) : l <> [] -> In (last l d) l.
Proof.
  induction l as [|x [|y l] IHl]; [easy | now left |].
  intros _. right. now apply IHl.
Qed.

(** A text that does not hold the last character of the pattern cannot
    complete an occurrence of it. *)
Lemma startswith_app_last (d : char) (old s t : pystr) :
  old <> [] -> ~ In (last old d) t ->
  startswith old (s ++ t) = startswith old s.
Proof.
  revert s; induction old as [|a old IH]; [easy|]; intros s _ Hnot.
  destruct s as [|b s].
  - simpl app. destruct (startswith (a :: old) t) eqn:E; [|now destruct t].
    exfalso; apply Hnot. apply (startswith_incl _ _ E).
    now apply last_In.
  - simpl. destruct old as [|a' old]; [now destruct s|].
    rewrite IH; [reflexivity | easy | exact Hnot].
Qed.

Section Replace.
Variables old new : pystr.
Hypothesis old_nonempty : old <> [].

Lemma replace_from_skip (k : nat) (s : pystr) :
  replace_from old new k s = replace_from old new O (skipn k s).
Proof.
  revert k; induction s as [|c s IH]; intros [|k]; try reflexivity.
  simpl skipn. simpl replace_from at 1. apply IH.
Qed.

Lemma replace_from_cons (c : char) (s : pystr) :
  replace_from old new O (c :: s) =
  if startswith old (c :: s)
  then new ++ replace_from old new O (skipn (List.length old) (c :: s))
  else c :: replace_from old new O s.
Proof.
  cbn [replace_from]. destruct (startswith old (c :: s)); [|reflexivity].
  rewrite replace_from_skip.
  destruct (List.length old) eqn:E; [|reflexivity].
  now apply length_zero_iff_nil in E.
Qed.

(** Induction along the scan of [replace]: an occurrence is jumped over,
    any other character is kept. *)
Lemma replace_from_ind (P : pystr -> pystr -> Prop) :
  P [] [] ->
  (forall c s,
      startswith old (c :: s) = true ->
      P (skipn (List.length old) (c :: s))
        (replace_from old new O (skipn (List.length old) (c :: s))) ->
      P (c :: s) (new ++ replace_from old new O (skipn (List.length old) (c :: s)))) ->
  (forall c s,
      startswith old (c :: s) = false ->
      P s (replace_from old new O s) ->
      P (c :: s) (c :: replace_from old new O s)) ->
  forall s, P s (replace_from old new O s).
Proof.
  intros Hnil Hhit Hmiss s.
  assert (H : forall n s, (List.length s <= n)%nat -> P s (replace_from old new O s)).
  { clear s; induction n as [|n IH]; intros [|c s] Hlen; simpl in Hlen;
      try exact Hnil; try lia.
    rewrite replace_from_cons.
    destruct (startswith old (c :: s)) eqn:E.
    - apply Hhit; [exact E|]. apply IH.
      destruct (List.length old) eqn:El;
        [now apply length_zero_iff_nil in El|].
      simpl skipn. pose proof (length_skipn n0 s). lia.
    - apply Hmiss; [exact E|]. apply IH. lia. }
  apply (H (List.length s)); lia.
Qed.

Lemma replace_from_absent (s : pystr) :
  occurs old s = false -> replace_from old new O s = s.
Proof.
  induction s as [|c s IH]; [reflexivity|].
  intro H. simpl occurs in H. apply orb_false_iff in H as [Hs Ho].
  rewrite replace_from_cons, Hs, IH; easy.
Qed.

Lemma replace_from_app_tail (d : char) (s t : pystr) :
  ~ In (last old d) t ->
  replace_from old new O (s ++ t) = replace_from old new O s ++ t.
Proof.
  intro Hnot.
  apply (replace_from_ind
           (fun s r => replace_from old new O (s ++ t) = r ++ t)).
  - simpl. induction t as [|c t IH]; [reflexivity|].
    rewrite replace_from_cons.
    rewrite <- (app_nil_l (c :: t)) at 1.
    rewrite (startswith_app_last d), IH; try easy.
    + now destruct old.
    + intro H; apply Hnot; now right.
  - intros c u E IH. rewrite <- app_comm_cons, replace_from_cons.
    rewrite app_comm_cons, (startswith_app_last d), E by easy.
    rewrite skipn_app.
    replace (List.length old - List.length (c :: u))%nat with O
      by (apply startswith_length in E; lia).
    simpl (skipn 0 t). now rewrite IH, app_assoc.
  - intros c u E IH. rewrite <- app_comm_cons, replace_from_cons.
    rewrite app_comm_cons, (startswith_app_last d), E by easy.
    now rewrite IH.
Qed.

End Replace.

Lemma occurs_startswith (sub t : pystr) :
  startswith sub t = true -> occurs sub t = true.
Proof. intro H. destruct t; simpl; now rewrite H. Qed.

Lemma occurs_app_r (sub a t : pystr) :
  occurs sub t = true -> occurs sub (a ++ t) = true.
Proof.
  intro H; induction a as [|c a IH]; [exact H|].
  simpl. rewrite IH. apply orb_true_r.
Qed.

Lemma occurs_app_l (sub s b : pystr) :
  occurs sub s = true -> occurs sub (s ++ b) = true.
Proof.
  induction s as [|c s IH]; simpl.
  - rewrite orb_false_r. intro H. destruct sub; [|easy]. now destruct b.
  - intro H; apply orb_true_iff in H as [H|H].
    + pose proof (startswith_app sub (c :: s) b H) as H'. simpl in H'.
      now rewrite H'.
    + rewrite (IH H). apply orb_true_r.
Qed.

Lemma occurs_contains (sub s : pystr) :
  occurs sub s = true <-> contains sub s.
Proof.
  split.
  - induction s as [|c s IH]; simpl.
    + rewrite orb_false_r. destruct sub; [|easy]. now exists [], [].
    + intro H; apply orb_true_iff in H as [H|H].
      * destruct (startswith_split _ _ H) as [post E]. now exists [], post.
      * destruct (IH H) as (pre & post & ->). now exists (c :: pre), post.
  - intros (pre & post & ->). apply occurs_app_r, occurs_app_l.
    apply occurs_startswith.
    pose proof (startswith_self_app sub []) as H. now rewrite app_nil_r in H.
Qed.

Lemma lstrip_suffix (s : pystr) : exists a, s = a ++ lstrip s.
Proof.
  induction s as [|c s [a IH]]; [now exists []|].
  simpl. destruct (isspace c); [|now exists []].
  exists (c :: a). simpl. now rewrite <- IH.
Qed.

Lemma strip_infix (s : pystr) : exists a b, s = a ++ strip s ++ b.
Proof.
  unfold strip, rstrip.
  destruct (lstrip_suffix s) as [a Ha].
  destruct (lstrip_suffix (rev (lstrip s))) as [b Hb].
  exists a, (rev b).
  rewrite <- rev_app_distr, <- Hb, rev_involutive. exact Ha.
Qed.

Lemma occurs_strip (sub s : pystr) :
  occurs sub (strip s) = true -> occurs sub s = true.
Proof.
  intro H. destruct (strip_infix s) as (a & b & E). rewrite E.
  now apply occurs_app_r, occurs_app_l.
Qed.

Lemma lstrip_app_newline (y : pystr) :
  lstrip (y ++ [10]) = lstrip y ++ [10] \/
  (lstrip (y ++ [10]) = [] /\ lstrip y = []).
Proof.
  induction y as [|c y IH]; simpl; [now right|].
  destruct (isspace c); [exact IH | now left].
Qed.

Lemma rstrip_app_newline (w : pystr) : rstrip (w ++ [10]) = rstrip w.
Proof. unfold rstrip. now rewrite rev_app_distr. Qed.

(** A line break on either side goes away with the trimming. *)
Lemma strip_lines (y : pystr) : strip ([10] ++ y ++ [10]) = strip y.
Proof.
  unfold strip. change (lstrip ([10] ++ y ++ [10])) with (lstrip (y ++ [10])).
  destruct (lstrip_app_newline y) as [E|[E1 E2]].
  - rewrite E. apply rstrip_app_newline.
  - now rewrite E1, E2.
Qed.

End PyStrFacts.
Import PyStrFacts.

(** ** Facts about the removal of the fence markers *)

Module FenceFacts.

Lemma fence_close_nonempty : fence_close <> [].
Proof. discriminate. Qed.

Lemma fence_open_nonempty : fence_open <> [].
Proof. discriminate. Qed.

Lemma replace_fence_open (s : pystr) :
  replace fence_open [] s = replace_from fence_open [] O s.
Proof. reflexivity. Qed.

Lemma replace_fence_close (s : pystr) :
  replace fence_close [] s = replace_from fence_close [] O s.
Proof. reflexivity. Qed.

(** The opening marker at the head of a text is the first occurrence
    that [replace] removes. *)
Lemma remove_open_head (w : pystr) :
  replace fence_open [] (fence_open ++ w) = replace fence_open [] w.
Proof.
  rewrite !replace_fence_open.
  change (fence_open ++ w)
    with (96 :: 96 :: 96 :: 106 :: 115 :: 111 :: 110 :: w).
  rewrite (replace_from_cons _ _ fence_open_nonempty). reflexivity.
Qed.

(** No occurrence of the opening marker can end inside a closing marker
    that follows the text. *)
Lemma remove_open_before_close (x : pystr) :
  replace fence_open [] (x ++ fence_close) =
  replace fence_open [] x ++ fence_close.
Proof.
  rewrite !replace_fence_open.
  apply (replace_from_app_tail _ _ fence_open_nonempty 0).
  simpl. intros [H|[H|[H|[]]]]; discriminate H.
Qed.

(** A closing marker after the text goes away with everything else:
    when the text ends in one or two backticks the occurrence that is
    removed starts on them, and as many backticks are left. *)
Lemma remove_close_tail (y : pystr) :
  replace fence_close [] (y ++ fence_close) = replace fence_close [] y.
Proof.
  rewrite !replace_fence_close.
  apply (replace_from_ind _ _ fence_close_nonempty
           (fun y r => replace_from fence_close [] O (y ++ fence_close) = r)).
  - reflexivity.
  - intros c s E IH.
    rewrite <- app_comm_cons, (replace_from_cons _ _ fence_close_nonempty).
    rewrite app_comm_cons, (startswith_app _ _ _ E).
    rewrite skipn_app.
    replace (List.length fence_close - List.length (c :: s))%nat with O
      by (apply startswith_length in E; lia).
    simpl (skipn 0 fence_close). exact IH.
  - intros c s E IH.
    rewrite <- app_comm_cons, (replace_from_cons _ _ fence_close_nonempty).
    destruct (startswith fence_close (c :: s ++ fence_close)) eqn:E'.
    + destruct s as [|x [|z s]]; cbn -[N.eqb] in E, E' |- *.
      * apply andb_true_iff in E' as [Ec _]. apply N.eqb_eq in Ec. now subst c.
      * apply andb_true_iff in E' as [Ec E']. apply N.eqb_eq in Ec.
        apply andb_true_iff in E' as [Ex _]. apply N.eqb_eq in Ex.
        now subst c x.
      * rewrite andb_true_r in E'. rewrite andb_true_r in E. congruence.
    + now rewrite IH.
Qed.

(** After the closing marker was replaced no three backticks in a row
    are left: a run of backticks keeps at most two of them. *)
Lemma no_close_after_replace (s : pystr) :
  occurs fence_close (replace fence_close [] s) = false.
Proof.
  rewrite replace_fence_close.
  enough (H : occurs fence_close (replace_from fence_close [] O s) = false /\
              (startswith [96; 96] (replace_from fence_close [] O s) = true ->
               startswith [96; 96] s = true) /\
              (startswith [96] (replace_from fence_close [] O s) = true ->
               startswith [96] s = true)) by apply H.
  apply (replace_from_ind _ _ fence_close_nonempty
           (fun s r => occurs fence_close r = false /\
                       (startswith [96; 96] r = true -> startswith [96; 96] s = true) /\
                       (startswith [96] r = true -> startswith [96] s = true))).
  - repeat split; easy.
  - intros c u E (IH1 & _ & _). simpl app. split; [exact IH1|].
    destruct (startswith_split _ _ E) as [v Hv]. rewrite Hv. now split.
  - intros c u E (IH1 & IH2 & IH3). repeat split.
    + cbn [occurs]. rewrite IH1, orb_false_r.
      destruct (startswith fence_close
                  (c :: replace_from fence_close [] O u)) eqn:E'; [|reflexivity].
      destruct (startswith_split _ _ E') as [v Hv].
      injection Hv as -> Hv.
      assert (H2 : startswith [96; 96] (replace_from fence_close [] O u) = true)
        by now rewrite Hv.
      apply IH2, startswith_split in H2 as [w ->]. discriminate E.
    + intro H. destruct (startswith_split _ _ H) as [v Hv].
      injection Hv as -> Hv.
      assert (H1 : startswith [96] (replace_from fence_close [] O u) = true)
        by now rewrite Hv.
      apply IH3, startswith_split in H1 as [w ->]. reflexivity.
    + intro H. destruct (startswith_split _ _ H) as [v Hv].
      injection Hv as -> _. reflexivity.
Qed.

Lemma occurs_open_close (s : pystr) :
  occurs fence_open s = true -> occurs fence_close s = true.
Proof.
  intro H. apply occurs_contains in H as (pre & post & ->).
  apply occurs_contains. exists pre, (py "json" ++ post). reflexivity.
Qed.

(** Line breaks around the text are not part of any marker. *)
Lemma replace_marker_lines (old x : pystr) (H : old <> []) :
  startswith old (10 :: x ++ nl) = false -> ~ In (last old 0) nl ->
  replace_from old [] O (nl ++ x ++ nl) = nl ++ replace_from old [] O x ++ nl.
Proof.
  intros Hs Hl. change (nl ++ x ++ nl) with (10 :: (x ++ nl)).
  rewrite (replace_from_cons _ _ H).
  match goal with
  | |- (if ?b then _ else _) = _ => replace b with false by (symmetry; exact Hs)
  end.
  now rewrite (replace_from_app_tail _ _ H 0 x nl Hl).
Qed.

End FenceFacts.
Import FenceFacts.

(** ** The decoder never runs out of fuel *)

Module JsonFacts.
Local Open Scope nat_scope.

Lemma skip_ws_length (s : pystr) : List.length (skip_ws s) <= List.length s.
Proof.
  induction s as [|c s IH]; simpl; [lia|]. destruct (is_ws c); simpl; lia.
Qed.

Lemma push_inv (c : char) (r : option (pystr * pystr)) (str rest : pystr) :
  push c r = Some (str, rest) -> exists str', r = Some (str', rest).
Proof.
  destruct r as [[str' rest']|]; simpl; [|discriminate].
  intro H; injection H as _ ->. now exists str'.
Qed.

(** A scanned string ends at its closing quote, so something was read. *)
Lemma scanstring_length (s str rest : pystr) :
  scanstring s = Some (str, rest) -> List.length rest < List.length s.
Proof.
  assert (H : forall n s, List.length s <= n -> forall str rest,
               scanstring s = Some (str, rest) ->
               List.length rest < List.length s).
  { clear; induction n as [|n IH]; intros [|c s1] Hlen str rest H;
      try discriminate H; simpl in Hlen; [lia|].
    cbn [scanstring] in H.
    repeat match type of H with
           | context [if ?b then _ else _] => destruct b
           | context [match ?x with _ => _ end] =>
               lazymatch x with
               | scanstring _ => fail
               | _ => destruct x
               end
           end; try discriminate H;
      try (injection H as _ <-; simpl; lia);
      apply push_inv in H as [str' H]; apply IH in H; simpl in *; lia. }
  intros E. apply (H (List.length s) s (le_n _) _ _ E).
Qed.

Lemma span_digits_length (s d r : pystr) :
  span_digits s = (d, r) -> List.length r <= List.length s.
Proof.
  revert d r; induction s as [|c s IH]; intros d r; simpl.
  - intro H; injection H as _ <-; simpl; lia.
  - destruct (is_digit c).
    + destruct (span_digits s) as [d' r'] eqn:E. intro H; injection H as _ <-.
      specialize (IH _ _ eq_refl). lia.
    + intro H; injection H as _ <-; simpl; lia.
Qed.

Lemma match_integer_length (s ip r : pystr) :
  match_integer s = Some (ip, r) -> List.length r < List.length s.
Proof.
  destruct s as [|c s]; simpl; [discriminate|].
  destruct (c =? 48)%N; [intro H; injection H as _ <-; simpl; lia|].
  destruct (is_digit c); [|discriminate].
  destruct (span_digits s) as [d r'] eqn:E. intro H; injection H as _ <-.
  apply span_digits_length in E. simpl; lia.
Qed.

Lemma match_frac_length (s f r : pystr) :
  match_frac s = Some (f, r) -> List.length r <= List.length s.
Proof.
  destruct s as [|p [|c s]]; simpl; try discriminate.
  destruct ((p =? 46)%N && is_digit c); [|discriminate].
  destruct (span_digits s) as [d r'] eqn:E. intro H; injection H as _ <-.
  apply span_digits_length in E. simpl; lia.
Qed.

Lemma match_exp_length (s x r : pystr) :
  match_exp s = Some (x, r) -> List.length r <= List.length s.
Proof.
  destruct s as [|e s]; simpl; [discriminate|].
  destruct ((e =? 101)%N || (e =? 69)%N); [|discriminate].
  match goal with
  | |- (let (_, _) := ?p in _) = _ -> _ =>
      assert (Hp : List.length (snd p) <= List.length s);
      [|destruct p as [sign s'']]
  end.
  { destruct s as [|c t]; simpl; [lia|].
    destruct ((c =? 43)%N || (c =? 45)%N); simpl; lia. }
  simpl in Hp.
  destruct (span_digits s'') as [[|c0 d] r0] eqn:E; [discriminate|].
  intro H; injection H as _ <-. apply span_digits_length in E. lia.
Qed.

Lemma match_number_length (s rest : pystr) (v : pyval) :
  match_number s = Some (v, rest) -> List.length rest < List.length s.
Proof.
  unfold match_number.
  match goal with
  | |- (let (_, _) := ?p in _) = _ -> _ =>
      assert (Hp : List.length (snd p) <= List.length s);
      [|destruct p as [neg s1]]
  end.
  { destruct s as [|c t]; simpl; [lia|]. destruct (c =? 45)%N; simpl; lia. }
  simpl in Hp.
  destruct (match_integer s1) as [[ip s2]|] eqn:Ei; [|discriminate].
  apply match_integer_length in Ei.
  match goal with
  | |- (let (_, _) := ?p in _) = _ -> _ =>
      assert (Hp3 : List.length (snd p) <= List.length s2);
      [|destruct p as [fr s3]]
  end.
  { destruct (match_frac s2) as [[f r]|] eqn:Ef; simpl;
      [apply match_frac_length in Ef; lia | lia]. }
  simpl in Hp3.
  match goal with
  | |- (let (_, _) := ?p in _) = _ -> _ =>
      assert (Hp4 : List.length (snd p) <= List.length s3);
      [|destruct p as [ex s4]]
  end.
  { destruct (match_exp s3) as [[x r]|] eqn:Ex; simpl;
      [apply match_exp_length in Ex; lia | lia]. }
  simpl in Hp4.
  destruct fr, ex; intro H; injection H as _ <-; lia.
Qed.

Lemma progress_skipn (k : nat) (v : pyval) (c : char) (r : pystr) :
  0 < k -> progress (Scanned v (skipn k (c :: r))) (c :: r).
Proof.
  intro Hk. unfold progress. rewrite length_skipn. simpl List.length. lia.
Qed.

Lemma scan_once_step (f : nat) : fuel_ok f ->
  forall s, 2 * List.length s < S f -> progress (scan_once (S f) s) s.
Proof.
  intros (_ & IHa & IHo) [|c r] Hf; [exact I|].
  cbn [scan_once]. simpl List.length in Hf.
  destruct (c =? 34)%N.
  { destruct (scanstring r) as [[str rest]|] eqn:E; [|exact I].
    apply scanstring_length in E. simpl; lia. }
  destruct (c =? 123)%N.
  { pose proof (skip_ws_length r) as Hw.
    destruct (skip_ws r) as [|c' r']; [exact I|].
    destruct (c' =? 125)%N; [simpl in *; lia|].
    specialize (IHo [] (c' :: r')).
    destruct (object_items f [] (c' :: r')); simpl in *;
      [apply IHo; lia | exact I | assert (2 * S (List.length r') + 1 < f) by lia; intuition lia]. }
  destruct (c =? 91)%N.
  { pose proof (skip_ws_length r) as Hw.
    destruct (skip_ws r) as [|c' r']; [exact I|].
    destruct (c' =? 93)%N; [simpl in *; lia|].
    specialize (IHa [] (c' :: r')).
    destruct (array_items f [] (c' :: r')); simpl in *;
      [apply IHa; lia | exact I | assert (2 * S (List.length r') + 1 < f) by lia; intuition lia]. }
  repeat match goal with
         | |- progress (if ?b then _ else _) _ =>
             destruct b; [apply progress_skipn; lia|]
         end.
  destruct (match_number (c :: r)) as [[v rest]|] eqn:E; [|exact I].
  apply match_number_length in E. exact E.
Qed.

Lemma array_items_step (f : nat) : fuel_ok f ->
  forall acc s, 2 * List.length s + 1 < S f -> progress (array_items (S f) acc s) s.
Proof.
  intros (IHs & IHa & _) acc s Hf. cbn [array_items].
  specialize (IHs s). destruct (scan_once f s) as [| |v rest];
    [apply IHs; lia | exact I |].
  simpl in IHs. pose proof (skip_ws_length rest) as Hw.
  destruct (skip_ws rest) as [|c r]; [exact I|].
  destruct (c =? 93)%N; [simpl in *; lia|].
  destruct (c =? 44)%N; [|exact I].
  pose proof (skip_ws_length r) as Hw'.
  specialize (IHa (v :: acc) (skip_ws r)).
  destruct (array_items f (v :: acc) (skip_ws r)); simpl in *;
    [apply IHa; lia | exact I | assert (2 * List.length (skip_ws r) + 1 < f) by lia; intuition lia].
Qed.

Lemma object_items_step (f : nat) : fuel_ok f ->
  forall acc s, 2 * List.length s + 1 < S f -> progress (object_items (S f) acc s) s.
Proof.
  intros (IHs & _ & IHo) acc [|q r] Hf; [exact I|]. cbn [object_items].
  destruct (q =? 34)%N; [|exact I].
  destruct (scanstring r) as [[key rest]|] eqn:E; [|exact I].
  apply scanstring_length in E. pose proof (skip_ws_length rest) as Hw.
  destruct (skip_ws rest) as [|c r2]; [exact I|].
  destruct (c =? 58)%N; [|exact I].
  pose proof (skip_ws_length r2) as Hw2.
  specialize (IHs (skip_ws r2)).
  destruct (scan_once f (skip_ws r2)) as [| |v rest2];
    [simpl in *; apply IHs; lia | exact I |].
  pose proof (skip_ws_length rest2) as Hw3.
  destruct (skip_ws rest2) as [|c2 r3]; [exact I|].
  destruct (c2 =? 125)%N;
    [simpl in *; assert (2 * List.length (skip_ws r2) < f) by lia; intuition lia|].
  destruct (c2 =? 44)%N; [|exact I].
  pose proof (skip_ws_length r3) as Hw4.
  specialize (IHo (dict_set acc key v) (skip_ws r3)).
  assert (List.length rest2 < List.length (skip_ws r2))
    by (simpl in *; apply IHs; lia).
  destruct (object_items f (dict_set acc key v) (skip_ws r3)); simpl in *;
    [apply IHo; lia | exact I | assert (2 * List.length (skip_ws r3) + 1 < f) by lia; intuition lia].
Qed.

Lemma fuel_ok_all (fuel : nat) : fuel_ok fuel.
Proof.
  induction fuel as [|f IH].
  - repeat split; intros; lia.
  - repeat split.
    + now apply scan_once_step.
    + now apply array_items_step.
    + now apply object_items_step.
Qed.

(** The fuel [json_loads] hands to the scanner is never used up. *)
Lemma scan_once_fuel (s : pystr) :
  scan_once (S (2 * List.length s)) (skip_ws s) <> OutOfFuel.
Proof.
  pose proof (skip_ws_length s) as Hw.
  destruct (fuel_ok_all (S (2 * List.length s))) as (H & _ & _).
  specialize (H (skip_ws s)). intro E. rewrite E in H. apply H. lia.
Qed.

End JsonFacts.
Import JsonFacts.

(** ** Facts about the parser and the search action *)

Module AppFacts.

(** Every failure of the decoder is a [JSONDecodeError]. *)
Lemma json_loads_error (s : pystr) (e : pyexn) :
  json_loads s = inl e -> e = JSONDecodeError.
Proof.
  unfold json_loads.
  destruct (startswith [65279] s); [congruence|].
  destruct (scan_once (S (2 * List.length s)) (skip_ws s)) as [| |v rest];
    try congruence.
  destruct (skip_ws rest); congruence.
Qed.

(** So the handler of [parse_stays_response] catches all of them: the
    parser always returns a value. *)
Lemma parse_never_raises (s : pystr) :
  exists v, outcome (parse_stays_response s) = inr v.
Proof.
  unfold parse_stays_response.
  destruct (json_loads (clean_text s)) as [e|v] eqn:E.
  - apply json_loads_error in E; subst e. now exists (PyList []).
  - now exists v.
Qed.

(** The value the parser returns on success is the decoded value as it
    is, whatever its type. *)
Lemma parse_returns_decoded (s : pystr) (v : pyval) :
  json_loads (clean_text s) = inr v -> parse_stays_response s = ret v.
Proof. unfold parse_stays_response. now intros ->. Qed.

Lemma strip_fences_wrapped (x : pystr) :
  strip_fences (fence_open ++ x ++ fence_close) = strip_fences x.
Proof.
  unfold strip_fences.
  now rewrite remove_open_head, remove_open_before_close, remove_close_tail.
Qed.

Lemma strip_fences_lines (x : pystr) :
  strip_fences (nl ++ x ++ nl) = nl ++ strip_fences x ++ nl.
Proof.
  unfold strip_fences. rewrite !replace_fence_open, !replace_fence_close.
  rewrite (replace_marker_lines _ _ fence_open_nonempty);
    [|reflexivity | simpl; intros [H|[]]; discriminate H].
  rewrite (replace_marker_lines _ _ fence_close_nonempty);
    [reflexivity | reflexivity | simpl; intros [H|[]]; discriminate H].
Qed.

(** The same holds for a fence written on lines of its own. *)
Lemma parse_rewrapped_lines (x : pystr) :
  parse_stays_response (fence_open ++ nl ++ x ++ nl ++ fence_close) =
  parse_stays_response x.
Proof.
  unfold parse_stays_response, clean_text.
  replace (fence_open ++ nl ++ x ++ nl ++ fence_close)
    with (fence_open ++ (nl ++ x ++ nl) ++ fence_close)
    by now rewrite <- !app_assoc.
  now rewrite strip_fences_wrapped, strip_fences_lines, strip_lines.
Qed.

Lemma prompt_tail_fence : occurs fence_open prompt_tail = true.
Proof. vm_compute. reflexivity. Qed.

(** A failure of the backend is reported and ends the search: nothing
    is parsed or displayed, and no exception escapes. *)
Lemma backend_failure_reported (B : builtins) (W : world) (location e : pystr) :
  key_present W = true -> configure_error W = None ->
  (forall p, generate_content W p = Raises e) ->
  main B W true location =
  if nonempty location then
    ([StColumns; StTextInput; StMarkdown (py "###"); StButton;
      StSpinner (128269 :: py " AI is scanning for stays in " ++ location ++ py "...");
      GenaiConfigure (match GEMINI_API_KEY W with Some k => k | None => [] end);
      GenerateContent (generate_stays_prompt location (radius W) (max_results W));
      StError (py "API Error: " ++ e)], inr tt)
  else
    ([StColumns; StTextInput; StMarkdown (py "###"); StButton;
      StInfo (128161 :: py " **Try searching for:** Kyoto, Downtown Chicago, Paris Latin Quarter")],
     inr tt).
Proof.
  intros Hk Hc Hg. unfold main, configure_gemini, get_gemini_response.
  unfold key_present in Hk |- *.
  destruct location as [|c l]; [reflexivity|].
  destruct (GEMINI_API_KEY W) as [[|k0 k]|]; try discriminate Hk.
  rewrite Hc, Hg. reflexivity.
Qed.

End AppFacts.
Import AppFacts.

(** ** Properties of the specification *)

(** C1, as stated, fails: for the valid triple ("New York", 10, 8) the
    prompt is not free of fence markers, since its second sentence
    quotes them. *)
Lemma C1_prompt_quotes_the_fence :
  py "New York" <> [] /\ (0 < 10)%Z /\ (0 < 8)%Z /\
  ~ fence_free (generate_stays_prompt (py "New York") 10 8).
Proof.
  repeat split; try easy.
  intros [H _]. apply H. apply occurs_contains. vm_compute. reflexivity.
Qed.

(** C1, amended: for every location, radius and number of results, the
    prompt of [generate_stays_prompt] contains the location verbatim,
    the decimal numeral of the radius and the decimal numeral of the
    number of results; and it does contain both fence markers, in the
    sentence that tells the backend not to use them. *)
Theorem C1_prompt_contents (location : pystr) (radius max_results : Z) :
  let prompt := generate_stays_prompt location radius max_results in
  contains location prompt /\
  contains (str_of_int radius) prompt /\
  contains (str_of_int max_results) prompt /\
  contains fence_open prompt /\
  contains fence_close prompt.
Proof.
  cbv zeta. unfold generate_stays_prompt.
  assert (Hopen : contains fence_open prompt_tail)
    by (apply occurs_contains, prompt_tail_fence).
  assert (Hclose : contains fence_close prompt_tail)
    by (apply occurs_contains, occurs_open_close, prompt_tail_fence).
  repeat split.
  - eexists (nl ++ py "    Act as a travel specialist. Find " ++
             str_of_int max_results ++ py " accommodation options around " ++ [dq]), _.
    rewrite <- !app_assoc. reflexivity.
  - eexists (nl ++ py "    Act as a travel specialist. Find " ++
             str_of_int max_results ++ py " accommodation options around " ++
             [dq] ++ location ++ [dq] ++ py " within "), _.
    rewrite <- !app_assoc. reflexivity.
  - eexists (nl ++ py "    Act as a travel specialist. Find "), _.
    rewrite <- !app_assoc. reflexivity.
  - destruct Hopen as (pre & post & ->).
    eexists (nl ++ py "    Act as a travel specialist. Find " ++
             str_of_int max_results ++ py " accommodation options around " ++
             [dq] ++ location ++ [dq] ++ py " within " ++ str_of_int radius ++
             py " km." ++ nl ++ pre), post.
    rewrite <- !app_assoc. reflexivity.
  - destruct Hclose as (pre & post & ->).
    eexists (nl ++ py "    Act as a travel specialist. Find " ++
             str_of_int max_results ++ py " accommodation options around " ++
             [dq] ++ location ++ [dq] ++ py " within " ++ str_of_int radius ++
             py " km." ++ nl ++ pre), post.
    rewrite <- !app_assoc. reflexivity.
Qed.

(** C2: the parser hands back whatever value the text decodes to.  On
    the text [{"a":1}] it returns the dict itself, with no failure and
    no notice, and on [[1]] a list that holds an [int]: neither is a
    list of dicts.  In the search action both then escape
    [display_stays] as an [AttributeError]. *)
Theorem C2_decoded_value_is_not_checked (B : builtins) :
  parse_stays_response (pyq "{'a':1}") = ([], inr (PyDict [(py "a", PyInt 1)])) /\
  is_stay_collection (PyDict [(py "a", PyInt 1)]) = false /\
  parse_stays_response (pyq "[1]") = ([], inr (PyList [PyInt 1])) /\
  is_stay_collection (PyList [PyInt 1]) = false /\
  outcome (main B (world_replying (pyq "{'a':1}")) true (py "New York"))
    = inl AttributeError /\
  outcome (main B (world_replying (pyq "[1]")) true (py "New York"))
    = inl AttributeError.
Proof. repeat split; vm_compute; reflexivity. Qed.

(** C3, as stated, fails: on the empty text the parser does not signal
    a failure value; it returns a list, the same one as for [[]]. *)
Lemma C3_empty_text_returns_a_list :
  ~ signals_failure (parse_stays_response (py "")) /\
  outcome (parse_stays_response (py "")) = inr (PyList []) /\
  outcome (parse_stays_response (py "")) = outcome (parse_stays_response (py "[]")).
Proof.
  repeat split; try (vm_compute; reflexivity).
  intros [e H]. vm_compute in H. discriminate H.
Qed.

(** C3, amended: on the empty text, on [not json] and on
    [{not an array}] decoding raises [JSONDecodeError]; the parser
    catches it, shows the notice "Failed to parse AI response. Please
    try again." and returns the empty list.  The failure shows in the
    notice, not in the value returned. *)
Theorem C3_malformed_texts_are_reported (s : pystr) :
  In s [py ""; py "not json"; py "{not an array}"] ->
  json_loads (clean_text s) = inl JSONDecodeError /\
  parse_stays_response s =
    ([StError (py "Failed to parse AI response. Please try again.")],
     inr (PyList [])).
Proof.
  intros [<-|[<-|[<-|[]]]]; split; vm_compute; reflexivity.
Qed.

Lemma C3_malformed_texts_are_reported_witness :
  In (py "not json") [py ""; py "not json"; py "{not an array}"] /\
  parse_stays_response (py "not json") =
    ([StError (py "Failed to parse AI response. Please try again.")],
     inr (PyList [])).
Proof.
  split.
  - right; left; reflexivity.
  - apply (C3_malformed_texts_are_reported (py "not json")).
    right; left; reflexivity.
Defined.

(* The statement on the removal of the markers comes last in the file,
   after the lemmas on [replace] and on the decoder that it rests on. *)

(** C5: parsing a text and parsing the same text with the opening
    marker put before it and the closing marker put after it give the
    same result: the same notices and the same value. *)
Theorem C5_parse_rewrapped (x : pystr) :
  parse_stays_response (fence_open ++ x ++ fence_close) = parse_stays_response x.
Proof.
  unfold parse_stays_response, clean_text.
  now rewrite strip_fences_wrapped.
Qed.

(** C6: a record whose rating is [null], or whose amenities hold
    numbers, makes [display_stays] raise a [TypeError] that nothing in
    [main] catches: the exception is the outcome of the search action. *)
Theorem C6_record_contents_escape_main (B : builtins) :
  outcome (main B (world_replying (pyq "[{'rating':null}]")) true (py "New York"))
    = inl TypeError /\
  outcome (main B (world_replying (pyq "[{'amenities':[1,2]}]")) true (py "New York"))
    = inl TypeError.
Proof. split; vm_compute; reflexivity. Qed.

(** C7: when the credential is missing (unset or empty) the search
    action never calls the backend, whatever the button and the text
    field hold; a search that was started ends at once with the notice
    that the key is missing, before the client is configured. *)
Theorem C7_no_backend_call_without_key
        (B : builtins) (W : world) (search_clicked : bool) (location : pystr) :
  key_present W = false ->
  existsb is_backend_call (trace (main B W search_clicked location)) = false /\
  (search_clicked = true -> location <> [] ->
   main B W search_clicked location =
     ([StColumns; StTextInput; StMarkdown (py "###"); StButton;
       StError (10060 :: py " API key missing.")], inr tt)).
Proof.
  intro Hk. unfold main. rewrite Hk.
  destruct search_clicked, location as [|c l]; split;
    try reflexivity; try easy.
Qed.

Lemma C7_no_backend_call_without_key_witness :
  key_present (world_without_key (py "[]")) = false /\
  existsb is_backend_call
    (trace (main sample_builtins (world_without_key (py "[]")) true (py "New York")))
    = false.
Proof.
  split.
  - reflexivity.
  - apply (C7_no_backend_call_without_key
             sample_builtins (world_without_key (py "[]")) true (py "New York")).
    reflexivity.
Defined.

(** C8: on the text [[]] the parser returns the empty list, with no
    notice and no failure. *)
Theorem C8_empty_array :
  parse_stays_response (py "[]") = ([], inr (PyList [])) /\
  is_stay_collection (PyList []) = true.
Proof. split; vm_compute; reflexivity. Qed.

(** C9: on the text [[{"name":"Inn A","rating":4.5}]] the parser
    returns a list of one dict whose name is the string Inn A and whose
    rating is the float of the lexeme 4.5; the dict has these two keys
    only, so type, distance_km, price_range, amenities and description
    are absent. *)
Theorem C9_one_record :
  let record := [(py "name", PyStr (py "Inn A"));
                 (py "rating", PyFloat (FDec (py "4.5")))] in
  parse_stays_response (pyq "[{'name':'Inn A','rating':4.5}]") =
    ([], inr (PyList [PyDict record])) /\
  dict_lookup record (py "name") = Some (PyStr (py "Inn A")) /\
  dict_lookup record (py "rating") = Some (PyFloat (FDec (py "4.5"))) /\
  dict_lookup record (py "type") = None /\
  dict_lookup record (py "distance_km") = None /\
  dict_lookup record (py "price_range") = None /\
  dict_lookup record (py "amenities") = None /\
  dict_lookup record (py "description") = None.
Proof. cbv zeta. repeat split; vm_compute; reflexivity. Qed.

(** C10: whenever decoding the cleaned text fails, the parser returns
    the empty list, the very value it returns for [[]]; only the notice
    in the trace tells the two apart. *)
Theorem C10_decode_failure_returns_empty (s : pystr) :
  json_loads (clean_text s) = inl JSONDecodeError ->
  outcome (parse_stays_response s) = inr (PyList []) /\
  outcome (parse_stays_response s) = outcome (parse_stays_response (py "[]")).
Proof.
  intro H. unfold parse_stays_response. rewrite H. split; reflexivity.
Qed.

Lemma C10_decode_failure_returns_empty_witness :
  json_loads (clean_text (py "not json")) = inl JSONDecodeError /\
  outcome (parse_stays_response (py "not json")) = inr (PyList []).
Proof.
  split.
  - vm_compute. reflexivity.
  - apply (C10_decode_failure_returns_empty (py "not json")).
    vm_compute. reflexivity.
Defined.

(** ** More on the cleaning of the response text *)

Module CleanFacts.

Section Separators.
Variables old new : pystr.
Hypothesis old_nonempty : old <> [].

(** A character that is not in the pattern cannot be inside an
    occurrence of it. *)
Lemma startswith_app_sep (x : char) (s r : pystr) :
  ~ In x old -> startswith old (s ++ x :: r) = startswith old s.
Proof.
  clear old_nonempty. revert s.
  induction old as [|a o IH]; intros s Hx; [now destruct s|].
  destruct s as [|b s]; simpl.
  - destruct (N.eqb_spec a x) as [->|_]; [|reflexivity].
    exfalso; apply Hx; now left.
  - destruct o as [|a' o]; [now destruct s|].
    rewrite IH; [reflexivity|]. intro H; apply Hx; now right.
Qed.

Lemma replace_from_sep (x : char) (s r : pystr) :
  ~ In x old ->
  replace_from old new O (s ++ x :: r) =
  replace_from old new O s ++ x :: replace_from old new O r.
Proof.
  intro Hx.
  apply (replace_from_ind old new old_nonempty
           (fun s res => replace_from old new O (s ++ x :: r) =
                         res ++ x :: replace_from old new O r)).
  - simpl app. rewrite (replace_from_cons old new old_nonempty).
    pose proof (startswith_app_sep x [] r Hx) as E. simpl app in E.
    rewrite E. now destruct old.
  - intros c u E IH.
    rewrite <- app_comm_cons, (replace_from_cons old new old_nonempty).
    rewrite app_comm_cons, (startswith_app_sep x (c :: u) r Hx), E.
    rewrite skipn_app.
    replace (List.length old - List.length (c :: u))%nat with O
      by (apply startswith_length in E; lia).
    simpl (skipn 0 (x :: r)). now rewrite IH, app_assoc.
  - intros c u E IH.
    rewrite <- app_comm_cons, (replace_from_cons old new old_nonempty).
    rewrite app_comm_cons, (startswith_app_sep x (c :: u) r Hx), E.
    now rewrite IH.
Qed.

(** A run of characters foreign to the pattern is copied as it is. *)
Lemma replace_from_foreign (a : pystr) :
  (forall c, In c a -> ~ In c old) -> replace_from old new O a = a.
Proof.
  induction a as [|c a IH]; intro H; [reflexivity|].
  pose proof (replace_from_sep c [] a (H c (or_introl eq_refl))) as E.
  change (replace_from old new O (c :: a) = c :: replace_from old new O a) in E.
  rewrite E, IH; [reflexivity|].
  intros c' Hc'. apply H. now right.
Qed.

Lemma replace_from_foreign_prefix (a w : pystr) :
  (forall c, In c a -> ~ In c old) ->
  replace_from old new O (a ++ w) = a ++ replace_from old new O w.
Proof.
  induction a as [|c a IH]; intro H; [reflexivity|].
  pose proof (replace_from_sep c [] (a ++ w) (H c (or_introl eq_refl))) as E.
  change (replace_from old new O (c :: a ++ w) =
          c :: replace_from old new O (a ++ w)) in E.
  simpl app. rewrite E, IH; [reflexivity|].
  intros c' Hc'. apply H. now right.
Qed.

(** A non-empty run of foreign characters splits the text in two parts
    that are replaced apart. *)
Lemma replace_from_foreign_mid (s a r : pystr) :
  a <> [] -> (forall c, In c a -> ~ In c old) ->
  replace_from old new O (s ++ a ++ r) =
  replace_from old new O s ++ a ++ replace_from old new O r.
Proof.
  destruct a as [|x a]; [easy|]. intros _ H. simpl app.
  rewrite replace_from_sep by (apply H; now left).
  rewrite replace_from_foreign_prefix; [reflexivity|].
  intros c Hc. apply H. now right.
Qed.

End Separators.

Lemma space_not_in_open (c : char) :
  isspace c = true -> ~ In c fence_open.
Proof.
  intros Hc H. simpl in H.
  repeat (destruct H as [<-|H]; [discriminate Hc|]). exact H.
Qed.

Lemma space_not_in_close (c : char) :
  isspace c = true -> ~ In c fence_close.
Proof.
  intros Hc H. simpl in H.
  repeat (destruct H as [<-|H]; [discriminate Hc|]). exact H.
Qed.

Lemma spaces_foreign (a old : pystr) :
  forallb isspace a = true ->
  (forall c, isspace c = true -> ~ In c old) ->
  forall c, In c a -> ~ In c old.
Proof.
  intros Ha Ho c Hc. apply Ho.
  rewrite forallb_forall in Ha. now apply Ha.
Qed.

Lemma lstrip_spaces_prefix (a z : pystr) :
  forallb isspace a = true -> lstrip (a ++ z) = lstrip z.
Proof.
  induction a as [|c a IH]; simpl; [reflexivity|].
  intro H. apply andb_true_iff in H as [Hc Ha]. now rewrite Hc, IH.
Qed.

Lemma lstrip_app_spaces (y b : pystr) :
  forallb isspace b = true ->
  lstrip (y ++ b) = lstrip y ++ b \/ (lstrip (y ++ b) = [] /\ lstrip y = []).
Proof.
  intro Hb. induction y as [|c y IH]; simpl.
  - right. split; [|reflexivity].
    rewrite <- (app_nil_r b). now rewrite lstrip_spaces_prefix.
  - destruct (isspace c); [exact IH | now left].
Qed.

Lemma rstrip_spaces_suffix (z b : pystr) :
  forallb isspace b = true -> rstrip (z ++ b) = rstrip z.
Proof.
  intro Hb. unfold rstrip. rewrite rev_app_distr, lstrip_spaces_prefix;
    [reflexivity|].
  apply forallb_forall. intros c Hc. apply in_rev in Hc.
  rewrite forallb_forall in Hb. now apply Hb.
Qed.

(** White space on either side goes away with the trimming. *)
Lemma strip_spaces (a y b : pystr) :
  forallb isspace a = true -> forallb isspace b = true ->
  strip (a ++ y ++ b) = strip y.
Proof.
  intros Ha Hb. unfold strip. rewrite lstrip_spaces_prefix by exact Ha.
  destruct (lstrip_app_spaces y b Hb) as [E|[E1 E2]].
  - rewrite E. now apply rstrip_spaces_suffix.
  - now rewrite E1, E2.
Qed.

Lemma lstrip_idempotent (s : pystr) : lstrip (lstrip s) = lstrip s.
Proof.
  induction s as [|c s IH]; [reflexivity|]. simpl.
  destruct (isspace c) eqn:E; [exact IH|]. simpl. now rewrite E.
Qed.

Lemma lstrip_head (s : pystr) :
  match lstrip s with c :: _ => isspace c = false | [] => True end.
Proof.
  induction s as [|c s IH]; [exact I|]. simpl.
  destruct (isspace c) eqn:E; [exact IH | exact E].
Qed.

Lemma lstrip_app_nonspace (u v : pystr) (c : char) :
  isspace c = false -> lstrip (u ++ c :: v) = lstrip u ++ c :: v.
Proof.
  intro Hc. induction u as [|x u IH]; simpl.
  - now rewrite Hc.
  - destruct (isspace x); [exact IH | reflexivity].
Qed.

Lemma rstrip_cons_nonspace (c : char) (r : pystr) :
  isspace c = false -> rstrip (c :: r) = c :: rstrip r.
Proof.
  intro Hc. unfold rstrip. simpl rev.
  rewrite (lstrip_app_nonspace (rev r) [] c Hc), rev_app_distr. reflexivity.
Qed.

Lemma rstrip_idempotent (z : pystr) : rstrip (rstrip z) = rstrip z.
Proof.
  unfold rstrip. now rewrite rev_involutive, lstrip_idempotent.
Qed.

Lemma strip_idempotent (t : pystr) : strip (strip t) = strip t.
Proof.
  unfold strip. pose proof (lstrip_head t) as H.
  destruct (lstrip t) as [|c r]; [reflexivity|].
  rewrite (rstrip_cons_nonspace c r H). simpl lstrip. rewrite H.
  rewrite <- (rstrip_cons_nonspace c r H). apply rstrip_idempotent.
Qed.

Lemma strip_head (t : pystr) :
  match strip t with c :: _ => isspace c = false | [] => True end.
Proof.
  unfold strip. pose proof (lstrip_head t) as H.
  destruct (lstrip t) as [|c r]; [exact I|].
  now rewrite (rstrip_cons_nonspace c r H).
Qed.

Lemma strip_last (t : pystr) :
  match rev (strip t) with c :: _ => isspace c = false | [] => True end.
Proof.
  unfold strip, rstrip. rewrite rev_involutive. apply lstrip_head.
Qed.

(** The first step of the cleaning leaves white space around the text
    where it is. *)
Lemma strip_fences_spaces (a x b : pystr) :
  forallb isspace a = true -> forallb isspace b = true ->
  strip_fences (a ++ x ++ b) = a ++ strip_fences x ++ b.
Proof.
  intros Ha Hb. unfold strip_fences.
  rewrite !replace_fence_open, !replace_fence_close.
  rewrite (replace_from_foreign_prefix _ _ fence_open_nonempty)
    by (apply spaces_foreign; [exact Ha | apply space_not_in_open]).
  rewrite (replace_from_app_tail _ _ fence_open_nonempty 0).
  2:{ intro H. rewrite forallb_forall in Hb. apply Hb in H. discriminate H. }
  rewrite (replace_from_foreign_prefix _ _ fence_close_nonempty)
    by (apply spaces_foreign; [exact Ha | apply space_not_in_close]).
  rewrite (replace_from_app_tail _ _ fence_close_nonempty 0); [reflexivity|].
  intro H. rewrite forallb_forall in Hb. apply Hb in H. discriminate H.
Qed.

Lemma remove_close_then_spaces (d : pystr) :
  forallb isspace d = true ->
  replace_from fence_close [] O (fence_close ++ d) = d.
Proof.
  intro Hd. change (fence_close ++ d) with (96 :: 96 :: 96 :: d).
  rewrite (replace_from_cons _ _ fence_close_nonempty). simpl.
  apply (replace_from_foreign _ _ fence_close_nonempty).
  apply spaces_foreign; [exact Hd | apply space_not_in_close].
Qed.

(** A closing marker that follows the text, with white space before or
    after it, is removed and the white space stays. *)
Lemma remove_close_among_spaces (y c d : pystr) :
  forallb isspace c = true -> forallb isspace d = true ->
  replace_from fence_close [] O (y ++ c ++ fence_close ++ d) =
  replace_from fence_close [] O y ++ c ++ d.
Proof.
  intros Hc Hd. destruct c as [|x c].
  - change ([] ++ fence_close ++ d) with (fence_close ++ d).
    change ([] ++ d) with d.
    destruct d as [|z d].
    + rewrite !app_nil_r. rewrite <- !replace_fence_close.
      apply remove_close_tail.
    + assert (Hz : ~ In z fence_close).
      { apply space_not_in_close. simpl in Hd.
        now apply andb_true_iff in Hd as [Hz _]. }
      assert (Hd' : forall c, In c d -> ~ In c fence_close).
      { apply spaces_foreign; [|apply space_not_in_close]. simpl in Hd.
        now apply andb_true_iff in Hd as [_ Hd]. }
      rewrite app_assoc.
      rewrite (replace_from_sep _ _ fence_close_nonempty z (y ++ fence_close) d Hz).
      rewrite (replace_from_foreign _ _ fence_close_nonempty d Hd').
      rewrite <- !replace_fence_close, remove_close_tail. reflexivity.
  - rewrite (replace_from_foreign_mid _ _ fence_close_nonempty
               y (x :: c) (fence_close ++ d));
      [|easy | apply spaces_foreign; [exact Hc | apply space_not_in_close]].
    now rewrite remove_close_then_spaces.
Qed.

Lemma strip_fences_block (a b x c d : pystr) :
  forallb isspace a = true -> forallb isspace b = true ->
  forallb isspace c = true -> forallb isspace d = true ->
  strip_fences (a ++ fence_open ++ b ++ x ++ c ++ fence_close ++ d) =
  (a ++ b) ++ strip_fences x ++ (c ++ d).
Proof.
  intros Ha Hb Hc Hd. unfold strip_fences.
  rewrite !replace_fence_open, !replace_fence_close.
  rewrite (replace_from_foreign_prefix _ _ fence_open_nonempty)
    by (apply spaces_foreign; [exact Ha | apply space_not_in_open]).
  rewrite <- replace_fence_open, remove_open_head, replace_fence_open.
  rewrite (replace_from_foreign_prefix _ _ fence_open_nonempty)
    by (apply spaces_foreign; [exact Hb | apply space_not_in_open]).
  rewrite (replace_from_app_tail _ _ fence_open_nonempty 0).
  2:{ intro H. simpl last in H. apply in_app_or in H as [H|H].
      - rewrite forallb_forall in Hc. apply Hc in H. discriminate H.
      - apply in_app_or in H as [H|H].
        + simpl in H. repeat (destruct H as [H|H]; [discriminate H|]). exact H.
        + rewrite forallb_forall in Hd. apply Hd in H. discriminate H. }
  rewrite (replace_from_foreign_prefix _ _ fence_close_nonempty)
    by (apply spaces_foreign; [exact Ha | apply space_not_in_close]).
  rewrite (replace_from_foreign_prefix _ _ fence_close_nonempty)
    by (apply spaces_foreign; [exact Hb | apply space_not_in_close]).
  rewrite (remove_close_among_spaces _ _ _ Hc Hd).
  now rewrite <- !app_assoc.
Qed.

Lemma clean_text_no_close (s : pystr) :
  occurs fence_close (clean_text s) = false.
Proof.
  destruct (occurs fence_close (clean_text s)) eqn:E; [|reflexivity].
  apply occurs_strip in E. unfold strip_fences in E.
  now rewrite no_close_after_replace in E.
Qed.

Lemma strip_fences_absent (s : pystr) :
  occurs fence_close s = false -> strip_fences s = s.
Proof.
  intro H. unfold strip_fences.
  rewrite replace_fence_open, replace_fence_close.
  assert (Ho : occurs fence_open s = false).
  { destruct (occurs fence_open s) eqn:E; [|reflexivity].
    apply occurs_open_close in E. congruence. }
  rewrite (replace_from_absent _ _ fence_open_nonempty s Ho).
  now apply replace_from_absent.
Qed.

Lemma clean_text_idempotent (s : pystr) :
  clean_text (clean_text s) = clean_text s.
Proof.
  unfold clean_text at 1.
  rewrite (strip_fences_absent _ (clean_text_no_close s)).
  unfold clean_text. apply strip_idempotent.
Qed.

End CleanFacts.
Import CleanFacts.

(** ** The renderer *)

Module DisplayFacts.

Lemma outcome_bind {A C} (m : ui A) (f : A -> ui C) :
  outcome (bind m f) =
  match outcome m with
  | inl e => inl e
  | inr a => outcome (f a)
  end.
Proof. destruct m as [t [e|a]]; simpl; [reflexivity|]. now destruct (f a). Qed.

Lemma trace_bind {A C} (m : ui A) (f : A -> ui C) :
  trace (bind m f) =
  trace m ++ match outcome m with
             | inl _ => []
             | inr a => trace (f a)
             end.
Proof.
  destruct m as [t [e|a]]; simpl; [now rewrite app_nil_r|]. now destruct (f a).
Qed.

Lemma ui_eta {A} (m : ui A) : m = (trace m, outcome m).
Proof. now destruct m. Qed.

Lemma py_get_dict (d : dict pyval) (key : pystr) (default : pyval) :
  py_get (PyDict d) key default = inr (get_or d key default).
Proof. unfold py_get, get_or. now destruct (dict_lookup d key). Qed.

Section Cards.
Variable B : builtins.

(** The card of a dict, spelled out. *)
Lemma display_stay_dict (n i : Z) (d : dict pyval) :
  display_stay B n i (PyDict d) =
  let rating := get_or d (py "rating") (PyInt 0) in
  let amenities := get_or d (py "amenities") (PyList []) in
  match py_int B rating with
  | inl e => (card_head d, inl e)
  | inr stars =>
      let body := card_head d ++
                  [StWriteRating stars rating;
                   StWrite (get_or d (py "description") (PyStr []))] in
      if truthy B amenities then
        match py_join bullet amenities with
        | inl e => (body, inl e)
        | inr joined =>
            (body ++ [StWrite (PyStr (py "**Amenities:** " ++ joined))] ++
             card_tail n i d, inr tt)
        end
      else (body ++ card_tail n i d, inr tt)
  end.
Proof.
  unfold display_stay, card_head, card_tail, bullet.
  rewrite !py_get_dict.
  cbv zeta. unfold bind, lift, emit, ret.
  destruct (py_int B (get_or d (py "rating") (PyInt 0))) as [e|stars];
    [reflexivity|].
  destruct (truthy B (get_or d (py "amenities") (PyList []))).
  - destruct (py_join [32; 8226; 32] (get_or d (py "amenities") (PyList [])))
      as [e|joined]; [reflexivity|].
    destruct (i <? n - 1)%Z; reflexivity.
  - destruct (i <? n - 1)%Z; reflexivity.
Qed.

Lemma display_stay_not_dict (n i : Z) (stay : pyval) :
  is_dict stay = false ->
  display_stay B n i stay = ([StContainer; StColumns], inl AttributeError).
Proof. destruct stay; try discriminate; reflexivity. Qed.

Lemma display_stay_outcome (n i : Z) (stay : pyval) :
  outcome (display_stay B n i stay) = inr tt <-> renders B stay = true.
Proof.
  destruct stay as [| | | | | |d];
    try (rewrite display_stay_not_dict by reflexivity; simpl; split; discriminate).
  rewrite display_stay_dict. cbv zeta. unfold renders.
  destruct (py_int B (get_or d (py "rating") (PyInt 0))) as [e|stars];
    [split; intro H; discriminate H|].
  destruct (truthy B (get_or d (py "amenities") (PyList [])));
    [destruct (py_join bullet (get_or d (py "amenities") (PyList [])))|];
    cbn [is_ok negb orb andb outcome snd]; split; intro H;
    try discriminate H; reflexivity.
Qed.

Lemma display_stay_events (n i : Z) (stay : pyval) :
  forallb is_display_event (trace (display_stay B n i stay)) = true.
Proof.
  destruct stay as [| | | | | |d];
    try (rewrite display_stay_not_dict by reflexivity; reflexivity).
  rewrite display_stay_dict. cbv zeta. unfold card_tail.
  destruct (py_int B (get_or d (py "rating") (PyInt 0))) as [e|stars];
    [reflexivity|].
  destruct (truthy B (get_or d (py "amenities") (PyList []))).
  - destruct (py_join bullet (get_or d (py "amenities") (PyList [])));
      [reflexivity|]. destruct (i <? n - 1)%Z; reflexivity.
  - destruct (i <? n - 1)%Z; reflexivity.
Qed.

(** A card that renders has one container, and a divider after it
    unless it is the last one. *)
Lemma display_stay_counts (n i : Z) (stay : pyval) :
  renders B stay = true ->
  filter is_card (trace (display_stay B n i stay)) = [StContainer] /\
  filter is_divider (trace (display_stay B n i stay)) =
    if (i <? n - 1)%Z then [StDivider] else [].
Proof.
  destruct stay as [| | | | | |d]; try discriminate.
  unfold renders. rewrite display_stay_dict. cbv zeta. unfold card_tail.
  destruct (py_int B (get_or d (py "rating") (PyInt 0))) as [e|stars];
    [discriminate|].
  destruct (truthy B (get_or d (py "amenities") (PyList []))).
  - destruct (py_join bullet (get_or d (py "amenities") (PyList [])));
      [discriminate|]. intros _. destruct (i <? n - 1)%Z; split; reflexivity.
  - intros _. destruct (i <? n - 1)%Z; split; reflexivity.
Qed.

Lemma for_enumerate_outcome (n i : Z) (items : list pyval) :
  outcome (for_enumerate (display_stay B n) i items) = inr tt <->
  forallb (renders B) items = true.
Proof.
  revert i; induction items as [|x items IH]; intro i; simpl.
  - split; reflexivity.
  - rewrite outcome_bind, andb_true_iff, <- (IH (i + 1)%Z),
      <- (display_stay_outcome n i x).
    destruct (outcome (display_stay B n i x)) as [e|[]]; split;
      try tauto; try discriminate.
Qed.

Lemma for_enumerate_events (n i : Z) (items : list pyval) :
  forallb is_display_event (trace (for_enumerate (display_stay B n) i items)) = true.
Proof.
  revert i; induction items as [|x items IH]; intro i; simpl; [reflexivity|].
  rewrite trace_bind, forallb_app, display_stay_events.
  destruct (outcome (display_stay B n i x)); [reflexivity | apply IH].
Qed.

Lemma for_enumerate_counts (n i : Z) (items : list pyval) :
  forallb (renders B) items = true ->
  (i + Z.of_nat (List.length items) = n)%Z ->
  List.length (filter is_card (trace (for_enumerate (display_stay B n) i items)))
    = List.length items /\
  List.length (filter is_divider (trace (for_enumerate (display_stay B n) i items)))
    = pred (List.length items).
Proof.
  revert i; induction items as [|x items IH]; intros i Hr Hn; [now split|].
  simpl in Hr. apply andb_true_iff in Hr as [Hx Hr].
  simpl for_enumerate. rewrite trace_bind, !filter_app, !length_app.
  destruct (display_stay_counts n i x Hx) as [Hc Hd].
  apply (display_stay_outcome n i) in Hx. rewrite Hx, Hc, Hd.
  destruct (IH (i + 1)%Z Hr) as [IHc IHd].
  { rewrite <- Hn. simpl List.length. lia. }
  rewrite IHc, IHd. simpl List.length in Hn |- *. split; [reflexivity|].
  destruct items as [|y items].
  - simpl in Hn. replace (i <? n - 1)%Z with false; [reflexivity|].
    symmetry; apply Z.ltb_ge; lia.
  - replace (i <? n - 1)%Z with true; [reflexivity|].
    symmetry; apply Z.ltb_lt. simpl List.length in Hn. lia.
Qed.

Lemma display_stays_list (l : list pyval) (location : pystr) :
  display_stays B (PyList l) location =
  (found (Z.of_nat (List.length l)) location ::
     trace (for_enumerate (display_stay B (Z.of_nat (List.length l))) 0%Z l),
   outcome (for_enumerate (display_stay B (Z.of_nat (List.length l))) 0%Z l)).
Proof.
  unfold display_stays, py_len, py_iter, found, bind, lift, emit.
  now destruct (for_enumerate _ _ _).
Qed.

Lemma all_str_is_text (l : list pyval) :
  forallb is_text l = true -> exists ss, all_str l = Some ss.
Proof.
  induction l as [|x l IH]; [now exists []|].
  simpl. intro H. apply andb_true_iff in H as [Hx Hl].
  destruct x as [| | | |str| |]; try discriminate.
  destruct (IH Hl) as [ss E]. exists (str :: ss). now rewrite E.
Qed.

Lemma conforming_renders (stay : pyval) :
  conforming_stay B stay = true -> renders B stay = true.
Proof.
  destruct stay as [| | | | | |d]; try discriminate.
  unfold conforming_stay, renders, get_or, opt_field. intro H.
  repeat (apply andb_true_iff in H as [H ?]).
  apply andb_true_iff; split.
  - destruct (dict_lookup d (py "rating")) as [[| | |[]| | |]|];
      try discriminate; try reflexivity.
    unfold is_rating in *. simpl py_int.
    now destruct (int_of_float B lexeme).
  - destruct (dict_lookup d (py "amenities")) as [[| | | | |l|]|];
      try discriminate; try reflexivity.
    apply orb_true_iff; right. unfold py_join, py_iter.
    destruct (all_str_is_text l) as [ss E]; [assumption|]. now rewrite E.
Qed.

(** A stay that renders is drawn as its card, followed by a divider
    unless it is the last one. *)
Lemma display_stay_card (n i : Z) (stay : pyval) :
  renders B stay = true ->
  trace (display_stay B n i stay) =
    card B stay ++ (if (i <? n - 1)%Z then [StDivider] else []) /\
  existsb is_divider (card B stay) = false /\
  hd_error (card B stay) = Some StContainer.
Proof.
  destruct stay as [| | | | | |d]; try discriminate.
  unfold renders, card. rewrite !display_stay_dict. cbv zeta. unfold card_tail.
  destruct (py_int B (get_or d (py "rating") (PyInt 0))) as [e|stars];
    [discriminate|].
  destruct (truthy B (get_or d (py "amenities") (PyList []))).
  - destruct (py_join bullet (get_or d (py "amenities") (PyList [])));
      [discriminate|]. intros _.
    change (0 <? 1 - 1)%Z with false. cbn [trace fst].
    split; [|split; reflexivity].
    destruct (i <? n - 1)%Z; [|now rewrite !app_nil_r].
    now rewrite <- !app_assoc.
  - intros _. change (0 <? 1 - 1)%Z with false. cbn [trace fst].
    split; [|split; reflexivity].
    destruct (i <? n - 1)%Z; [|now rewrite !app_nil_r].
    now rewrite <- !app_assoc.
Qed.

Lemma for_enumerate_cards (n i : Z) (items : list pyval) :
  forallb (renders B) items = true ->
  (i + Z.of_nat (List.length items) = n)%Z ->
  trace (for_enumerate (display_stay B n) i items) =
    between [StDivider] (map (card B) items).
Proof.
  revert i; induction items as [|x items IH]; intros i Hr Hn; [reflexivity|].
  simpl in Hr. apply andb_true_iff in Hr as [Hx Hr].
  simpl for_enumerate. rewrite trace_bind.
  destruct (display_stay_card n i x Hx) as [Ht _].
  apply (display_stay_outcome n i) in Hx. rewrite Hx, Ht.
  rewrite (IH (i + 1)%Z Hr) by (simpl List.length in Hn; lia).
  destruct items as [|y items].
  - simpl in Hn. replace (i <? n - 1)%Z with false
      by (symmetry; apply Z.ltb_ge; lia).
    cbn [map between]. now rewrite !app_nil_r.
  - replace (i <? n - 1)%Z with true
      by (symmetry; apply Z.ltb_lt; simpl List.length in Hn; lia).
    cbn [map between]. now rewrite <- app_assoc.
Qed.

End Cards.

End DisplayFacts.
Import DisplayFacts.

(** ** The search action, path by path *)

Module MainFacts.

Section Paths.
Variable B : builtins.
Variable W : world.

Lemma display_stays_events (stays : pyval) (location : pystr) :
  forallb is_display_event (trace (display_stays B stays location)) = true.
Proof.
  unfold display_stays.
  destruct (py_len stays) as [e|n] eqn:En; [reflexivity|].
  destruct (py_iter stays) as [e|items] eqn:Ei;
    [destruct stays; discriminate|].
  pose proof (for_enumerate_events B n 0%Z items) as H.
  unfold bind, lift, emit.
  destruct (for_enumerate (display_stay B n) 0%Z items) as [t r].
  exact H.
Qed.

Lemma display_stays_outcome (stays : pyval) (location : pystr) :
  outcome (display_stays B stays location) = inr tt <->
  displayable B stays = true.
Proof.
  destruct stays as [| b | z | f | [|c s] | l | [|[k v] d]];
    try (split; intro H; discriminate H);
    try (split; reflexivity).
  rewrite display_stays_list. apply for_enumerate_outcome.
Qed.

Lemma main_idle (search_clicked : bool) (location : pystr) :
  search_clicked && nonempty location = false ->
  main B W search_clicked location =
    (widgets ++ (if nonempty location then [] else [hint]), inr tt).
Proof.
  unfold main. intros ->. now destruct (nonempty location).
Qed.

Lemma main_missing_key (location : pystr) :
  location <> [] -> key_present W = false ->
  main B W true location = (widgets ++ [missing_key], inr tt).
Proof.
  intros Hl Hk. unfold main. rewrite Hk.
  destruct location; [contradiction | reflexivity].
Qed.

Lemma main_configure_failure (location key e : pystr) :
  location <> [] -> GEMINI_API_KEY W = Some key -> key <> [] ->
  configure_error W = Some e ->
  main B W true location =
    (widgets ++ [spinner location; GenaiConfigure key; configure_failed e],
     inr tt).
Proof.
  intros Hl Hk Hk' Hc. unfold main, key_present, configure_gemini.
  rewrite Hk, Hc. destruct location; [contradiction|].
  destruct key; [contradiction | reflexivity].
Qed.

Lemma main_backend_failure (location key e : pystr) :
  location <> [] -> GEMINI_API_KEY W = Some key -> key <> [] ->
  configure_error W = None ->
  generate_content W (generate_stays_prompt location (radius W) (max_results W))
    = Raises e ->
  main B W true location =
    (search_prefix W key location ++ [api_failed e], inr tt).
Proof.
  intros Hl Hk Hk' Hc Hg.
  unfold main, key_present, configure_gemini, get_gemini_response.
  rewrite Hk, Hc. destruct location as [|c l]; [contradiction|].
  destruct key; [contradiction|]. cbn [nonempty andb negb].
  unfold bind, emit, ret. rewrite Hg. reflexivity.
Qed.

Lemma main_empty_response (location key : pystr) :
  location <> [] -> GEMINI_API_KEY W = Some key -> key <> [] ->
  configure_error W = None ->
  generate_content W (generate_stays_prompt location (radius W) (max_results W))
    = Text [] ->
  main B W true location = (search_prefix W key location, inr tt).
Proof.
  intros Hl Hk Hk' Hc Hg.
  unfold main, key_present, configure_gemini, get_gemini_response.
  rewrite Hk, Hc. destruct location as [|c l]; [contradiction|].
  destruct key; [contradiction|]. cbn [nonempty andb negb].
  unfold bind, emit, ret. rewrite Hg. reflexivity.
Qed.

Lemma main_reply (location key text : pystr) :
  location <> [] -> GEMINI_API_KEY W = Some key -> key <> [] ->
  configure_error W = None ->
  generate_content W (generate_stays_prompt location (radius W) (max_results W))
    = Text text ->
  text <> [] ->
  main B W true location =
    (search_prefix W key location ++
       trace (bind (parse_stays_response text)
                (fun stays => if truthy B stays
                              then display_stays B stays location
                              else emit no_data)),
     outcome (bind (parse_stays_response text)
                (fun stays => if truthy B stays
                              then display_stays B stays location
                              else emit no_data))).
Proof.
  intros Hl Hk Hk' Hc Hg Ht.
  unfold main, key_present, configure_gemini, get_gemini_response.
  rewrite Hk, Hc. destruct location as [|c l]; [contradiction|].
  destruct key; [contradiction|]. destruct text as [|t0 text]; [contradiction|].
  cbn [nonempty andb negb].
  unfold bind, emit, ret, no_data. rewrite Hg.
  destruct (parse_stays_response (t0 :: text)) as [pt [e|v]]; [reflexivity|].
  destruct (truthy B v); [|reflexivity].
  destruct (display_stays B v (c :: l)) as [dt dr]. reflexivity.
Qed.

End Paths.

End MainFacts.
Import MainFacts.

(** ** Every way through the search action *)

Module PathFacts.

Lemma parse_cases (text : pystr) :
  (json_loads (clean_text text) = inl JSONDecodeError /\
   parse_stays_response text = ([parse_failed], inr (PyList []))) \/
  (exists v, json_loads (clean_text text) = inr v /\
             parse_stays_response text = ([], inr v)).
Proof.
  unfold parse_stays_response.
  destruct (json_loads (clean_text text)) as [e|v] eqn:E.
  - apply json_loads_error in E. subst e. left. now split.
  - right. exists v. now split.
Qed.

Lemma main_paths (B : builtins) (W : world) (search_clicked : bool)
      (location : pystr) :
  (search_clicked && nonempty location = false /\
   main B W search_clicked location =
     (widgets ++ (if nonempty location then [] else [hint]), inr tt)) \/
  (search_clicked = true /\ location <> [] /\ key_present W = false /\
   main B W search_clicked location = (widgets ++ [missing_key], inr tt)) \/
  (exists key,
      search_clicked = true /\ location <> [] /\
      GEMINI_API_KEY W = Some key /\ key <> [] /\
      ((exists e,
           configure_error W = Some e /\
           main B W search_clicked location =
             (widgets ++ [spinner location; GenaiConfigure key; configure_failed e],
              inr tt)) \/
       (configure_error W = None /\
        ((exists e,
             generate_content W
               (generate_stays_prompt location (radius W) (max_results W))
               = Raises e /\
             main B W search_clicked location =
               (search_prefix W key location ++ [api_failed e], inr tt)) \/
         (generate_content W
            (generate_stays_prompt location (radius W) (max_results W))
            = Text [] /\
          main B W search_clicked location = (search_prefix W key location, inr tt)) \/
         (exists text,
             text <> [] /\
             generate_content W
               (generate_stays_prompt location (radius W) (max_results W))
               = Text text /\
             ((json_loads (clean_text text) = inl JSONDecodeError /\
               main B W search_clicked location =
                 (search_prefix W key location ++ [parse_failed; no_data], inr tt)) \/
              (exists v,
                  json_loads (clean_text text) = inr v /\
                  ((truthy B v = false /\
                    main B W search_clicked location =
                      (search_prefix W key location ++ [no_data], inr tt)) \/
                   (truthy B v = true /\
                    main B W search_clicked location =
                      (search_prefix W key location ++
                         trace (display_stays B v location),
                       outcome (display_stays B v location))))))))))).
Proof.
  destruct (search_clicked && nonempty location) eqn:Ec.
  2:{ left. split; [reflexivity|]. now apply main_idle. }
  right. apply andb_true_iff in Ec as [-> Hl].
  assert (Hl' : location <> []) by (now destruct location).
  destruct (key_present W) eqn:Ek.
  2:{ left. repeat split; try assumption. now apply main_missing_key. }
  right. unfold key_present in Ek.
  destruct (GEMINI_API_KEY W) as [key|] eqn:EK; [|discriminate].
  assert (Hk : key <> []) by (now destruct key).
  exists key. repeat split; try assumption.
  destruct (configure_error W) as [e|] eqn:Ecf.
  { left. exists e. split; [reflexivity|]. now apply main_configure_failure. }
  right. split; [reflexivity|].
  destruct (generate_content W
              (generate_stays_prompt location (radius W) (max_results W)))
    as [text|e] eqn:Eg.
  2:{ left. exists e. split; [reflexivity|]. now apply main_backend_failure. }
  right. destruct text as [|t0 text].
  { left. split; [reflexivity|]. now apply main_empty_response. }
  right. exists (t0 :: text). split; [discriminate|]. split; [reflexivity|].
  rewrite (main_reply B W location key (t0 :: text)) by (assumption || discriminate).
  destruct (parse_cases (t0 :: text)) as [[Ej Ep]|[v [Ej Ep]]]; rewrite Ep.
  - left. split; [exact Ej|]. reflexivity.
  - right. exists v. split; [exact Ej|].
    unfold bind. destruct (truthy B v) eqn:Et.
    + right. split; [reflexivity|].
      destruct (display_stays B v location) as [dt dr]. reflexivity.
    + left. split; reflexivity.
Qed.

Lemma display_events_filter (Q : event -> bool) (t : list event) :
  forallb is_display_event t = true ->
  (forall ev, is_display_event ev = true -> Q ev = false) ->
  filter Q t = [].
Proof.
  intros Ht HQ. induction t as [|ev t IH]; [reflexivity|].
  simpl in Ht. apply andb_true_iff in Ht as [Hev Ht].
  simpl. now rewrite (HQ ev Hev), IH.
Qed.

Lemma display_events_not_in (ev : event) (t : list event) :
  forallb is_display_event t = true -> is_display_event ev = false ->
  ~ In ev t.
Proof.
  intros Ht Hev Hin. rewrite forallb_forall in Ht. apply Ht in Hin. congruence.
Qed.

End PathFacts.
Import PathFacts.

(** ** Further properties of the parser *)

(** X1: white space around the response text is ignored: whatever
    [str.isspace] characters precede or follow the text, the parser
    gives the same notices and the same value. *)
Theorem parse_ignores_outer_space (a x b : pystr) :
  forallb isspace a = true -> forallb isspace b = true ->
  parse_stays_response (a ++ x ++ b) = parse_stays_response x.
Proof.
  intros Ha Hb. unfold parse_stays_response, clean_text.
  now rewrite strip_fences_spaces, strip_spaces.
Qed.

Lemma parse_ignores_outer_space_witness :
  forallb isspace (py "  ") = true /\ forallb isspace nl = true /\
  parse_stays_response (py "  " ++ py "[]" ++ nl) = parse_stays_response (py "[]").
Proof.
  split; [reflexivity|]. split; [reflexivity|].
  apply (parse_ignores_outer_space (py "  ") (py "[]") nl); reflexivity.
Defined.

(** X2: a response written as a fenced block parses as its body: the
    opening marker, the body and the closing marker may each be set off
    by any white space (line breaks, blanks), before, between and
    after. *)
Theorem parse_fenced_block (a b x c d : pystr) :
  forallb isspace a = true -> forallb isspace b = true ->
  forallb isspace c = true -> forallb isspace d = true ->
  parse_stays_response (a ++ fence_open ++ b ++ x ++ c ++ fence_close ++ d) =
  parse_stays_response x.
Proof.
  intros Ha Hb Hc Hd. unfold parse_stays_response, clean_text.
  rewrite strip_fences_block by assumption.
  rewrite strip_spaces; [reflexivity | |]; rewrite forallb_app;
    apply andb_true_iff; now split.
Qed.

Lemma parse_fenced_block_witness :
  forallb isspace [] = true /\ forallb isspace nl = true /\
  parse_stays_response
    ([] ++ fence_open ++ nl ++ pyq "[{'name':'Inn A'}]" ++ nl ++ fence_close ++ nl) =
  parse_stays_response (pyq "[{'name':'Inn A'}]").
Proof.
  split; [reflexivity|]. split; [reflexivity|].
  apply (parse_fenced_block [] nl (pyq "[{'name':'Inn A'}]") nl nl); reflexivity.
Defined.

(** X3: cleaning is idempotent: the cleaned text is a fixed point of the
    cleaning, so parsing the cleaned text gives the same result as
    parsing the text. *)
Theorem parse_of_cleaned_text (s : pystr) :
  clean_text (clean_text s) = clean_text s /\
  parse_stays_response (clean_text s) = parse_stays_response s.
Proof.
  split; [apply clean_text_idempotent|].
  unfold parse_stays_response. now rewrite clean_text_idempotent.
Qed.

(** X4: the text handed to [json.loads] neither starts nor ends with a
    white space character. *)
Theorem cleaned_text_is_trimmed (s : pystr) :
  match clean_text s with c :: _ => isspace c = false | [] => True end /\
  match rev (clean_text s) with c :: _ => isspace c = false | [] => True end.
Proof.
  unfold clean_text. split; [apply strip_head | apply strip_last].
Qed.

(** ** Further properties of the renderer *)

(** X5: [display_stays] completes only on a list of dicts whose rating
    [int()] accepts and whose amenities are falsy or can be joined, or
    on an empty string or dict: on any other argument it raises. *)
Theorem display_stays_raises_unless_displayable (B : builtins) (stays : pyval)
        (location : pystr) :
  displayable B stays = false ->
  exists e, outcome (display_stays B stays location) = inl e.
Proof.
  intro Hd. pose proof (display_stays_outcome B stays location) as H.
  destruct (outcome (display_stays B stays location)) as [e|[]];
    [now exists e|].
  apply proj1 in H. specialize (H eq_refl). congruence.
Qed.

Lemma display_stays_raises_unless_displayable_witness :
  displayable sample_builtins (PyList [PyDict []; PyInt 3]) = false /\
  exists e,
    outcome (display_stays sample_builtins (PyList [PyDict []; PyInt 3])
               (py "Paris")) = inl e.
Proof.
  split; [reflexivity|].
  apply (display_stays_raises_unless_displayable sample_builtins
           (PyList [PyDict []; PyInt 3]) (py "Paris")).
  reflexivity.
Defined.

(** X6: a list of records as the prompt asks for them (each of the
    seven fields missing or of its type: name, type, description and
    price_range strings of characters, distance_km a float or an int
    below a million, rating an int or a convertible float between 0 and
    5, amenities a list of strings of characters) is displayed whole
    for a location made of characters: no exception, first the notice
    with the number of stays, then the cards of the records in order,
    with one divider between two cards and none after the last; a card
    starts with its container and holds no divider. *)
Theorem display_stays_conforming (B : builtins) (l : list pyval)
        (location : pystr) :
  forallb (conforming_stay B) l = true ->
  forallb scalar_value location = true ->
  display_stays B (PyList l) location =
    (found (Z.of_nat (List.length l)) location ::
       between [StDivider] (map (card B) l), inr tt) /\
  (forall stay, In stay l ->
     existsb is_divider (card B stay) = false /\
     hd_error (card B stay) = Some StContainer).
Proof.
  intros H _.
  assert (Hr : forallb (renders B) l = true).
  { apply forallb_forall. intros x Hx. apply conforming_renders.
    rewrite forallb_forall in H. now apply H. }
  split.
  - rewrite display_stays_list.
    rewrite (for_enumerate_cards B (Z.of_nat (List.length l)) 0%Z l Hr eq_refl).
    f_equal. now apply for_enumerate_outcome.
  - intros stay Hin. rewrite forallb_forall in Hr.
    apply (display_stay_card B 1 0 stay (Hr stay Hin)).
Qed.

Lemma display_stays_conforming_witness :
  forallb (conforming_stay sample_builtins)
    [PyDict [(py "name", PyStr (py "Inn A")); (py "rating", PyInt 4)];
     PyDict [(py "amenities", PyList [PyStr (py "wifi")])]] = true /\
  forallb scalar_value (py "Paris") = true /\
  display_stays sample_builtins
    (PyList [PyDict [(py "name", PyStr (py "Inn A")); (py "rating", PyInt 4)];
             PyDict [(py "amenities", PyList [PyStr (py "wifi")])]])
    (py "Paris") =
    (found 2 (py "Paris") ::
       between [StDivider]
         (map (card sample_builtins)
            [PyDict [(py "name", PyStr (py "Inn A")); (py "rating", PyInt 4)];
             PyDict [(py "amenities", PyList [PyStr (py "wifi")])]]),
     inr tt).
Proof.
  split; [reflexivity|]. split; [reflexivity|].
  apply (display_stays_conforming sample_builtins
    [PyDict [(py "name", PyStr (py "Inn A")); (py "rating", PyInt 4)];
     PyDict [(py "amenities", PyList [PyStr (py "wifi")])]] (py "Paris"));
    reflexivity.
Defined.

(** X7: the card of a record depends on its seven known fields only:
    two dicts that agree on name, type, distance_km, rating,
    description, amenities and price_range are rendered alike, so
    unknown extra fields are ignored. *)
Theorem display_stay_reads_known_fields (B : builtins) (n i : Z)
        (d d' : dict pyval) :
  (forall key, In key stay_keys -> dict_lookup d key = dict_lookup d' key) ->
  display_stay B n i (PyDict d) = display_stay B n i (PyDict d').
Proof.
  intro H. rewrite !display_stay_dict. unfold card_head, card_tail, get_or.
  rewrite (H (py "name")), (H (py "type")), (H (py "distance_km")),
    (H (py "rating")), (H (py "description")), (H (py "amenities")),
    (H (py "price_range"));
    [reflexivity | ..]; unfold stay_keys;
    repeat (first [left; reflexivity | right]).
Qed.

Lemma display_stay_reads_known_fields_witness :
  (forall key, In key stay_keys ->
     dict_lookup [(py "name", PyStr (py "Inn A"))] key =
     dict_lookup [(py "name", PyStr (py "Inn A")); (py "stars", PyInt 5)] key) /\
  display_stay sample_builtins 1 0 (PyDict [(py "name", PyStr (py "Inn A"))]) =
  display_stay sample_builtins 1 0
    (PyDict [(py "name", PyStr (py "Inn A")); (py "stars", PyInt 5)]).
Proof.
  assert (H : forall key, In key stay_keys ->
     dict_lookup [(py "name", PyStr (py "Inn A"))] key =
     dict_lookup [(py "name", PyStr (py "Inn A")); (py "stars", PyInt 5)] key).
  { intros key Hk. unfold stay_keys in Hk.
    repeat (destruct Hk as [<-|Hk]; [reflexivity|]). destruct Hk. }
  split; [exact H|].
  apply (display_stay_reads_known_fields sample_builtins 1 0
           [(py "name", PyStr (py "Inn A"))]
           [(py "name", PyStr (py "Inn A")); (py "stars", PyInt 5)] H).
Defined.

(** X8: [display_stays] only draws: whatever value it is given, every
    event it emits is a success notice or part of a card; it never
    calls the backend, never configures the client and never shows an
    error, warning or info notice. *)
Theorem display_stays_only_draws (B : builtins) (stays : pyval)
        (location : pystr) :
  forallb is_display_event (trace (display_stays B stays location)) = true /\
  existsb is_backend_call (trace (display_stays B stays location)) = false /\
  existsb is_configure_call (trace (display_stays B stays location)) = false.
Proof.
  pose proof (display_stays_events B stays location) as H.
  split; [exact H|].
  split.
  - induction (trace (display_stays B stays location)) as [|ev t IH];
      [reflexivity|].
    simpl in H. apply andb_true_iff in H as [Hev Ht].
    simpl. rewrite (IH Ht). now destruct ev.
  - induction (trace (display_stays B stays location)) as [|ev t IH];
      [reflexivity|].
    simpl in H. apply andb_true_iff in H as [Hev Ht].
    simpl. rewrite (IH Ht). now destruct ev.
Qed.

(** ** Further properties of the search action *)

Module SearchFacts.

Lemma str_eqb_neq (a b : pystr) : a <> b -> str_eqb a b = false.
Proof. intro H. unfold str_eqb. now destruct (list_eq_dec N.eq_dec a b). Qed.

Lemma display_events_existsb (Q : event -> bool) (t : list event) :
  forallb is_display_event t = true ->
  (forall ev, is_display_event ev = true -> Q ev = false) ->
  existsb Q t = false.
Proof.
  intros Ht HQ. induction t as [|ev t IH]; [reflexivity|].
  simpl in Ht. apply andb_true_iff in Ht as [Hev Ht].
  simpl. now rewrite (HQ ev Hev), IH.
Qed.

Lemma is_error_display (message : pystr) (ev : event) :
  is_display_event ev = true -> is_error message ev = false.
Proof. now destruct ev. Qed.

Lemma backend_call_display (ev : event) :
  is_display_event ev = true -> is_backend_call ev = false.
Proof. now destruct ev. Qed.

Lemma configure_call_display (ev : event) :
  is_display_event ev = true -> is_configure_call ev = false.
Proof. now destruct ev. Qed.

End SearchFacts.
Import SearchFacts.

(** Case analysis along the paths of [main]. *)
Ltac main_cases B W c l :=
  destruct (main_paths B W c l)
    as [[? ->]
       |[(? & ? & ? & ->)
        |(?key & ? & ? & ? & ? &
          [(?e & ? & ->)
          |(? & [(?e & ? & ->)
                |[(? & ->)
                 |(?text & ? & ? &
                   [(? & ->)
                   |(?v & ? & [(? & ->)|(? & ->)])])]])])]].

(** X9: without a click, or with an empty location, [main] only draws
    its widgets (and the hint when the location is empty): it does not
    look at the credential, configure the client or call the backend. *)
Theorem main_without_search (B : builtins) (W : world) (search_clicked : bool)
        (location : pystr) :
  search_clicked = false \/ location = [] ->
  main B W search_clicked location =
    (widgets ++ (if nonempty location then [] else [hint]), inr tt).
Proof.
  intros [-> | ->]; apply main_idle; [reflexivity | apply andb_false_r].
Qed.

Lemma main_without_search_witness :
  (true = false \/ @nil char = []) /\
  main sample_builtins (world_replying (py "[]")) true [] =
    (widgets ++ [hint], inr tt).
Proof.
  split; [now right|].
  apply (main_without_search sample_builtins (world_replying (py "[]")) true []).
  now right.
Defined.

(** X10: when the client cannot be configured, the search reports
    "Error configuring Gemini:" with the message of the exception and
    stops: no request is sent, and no exception escapes. *)
Theorem main_reports_configure_failure (B : builtins) (W : world)
        (location key e : pystr) :
  location <> [] -> GEMINI_API_KEY W = Some key -> key <> [] ->
  configure_error W = Some e ->
  main B W true location =
    (widgets ++ [spinner location; GenaiConfigure key; configure_failed e],
     inr tt).
Proof. apply main_configure_failure. Qed.

Lemma main_reports_configure_failure_witness :
  py "Oslo" <> [] /\
  main sample_builtins (world_misconfigured (py "bad key")) true (py "Oslo") =
    (widgets ++ [spinner (py "Oslo"); GenaiConfigure (py "secret");
                 configure_failed (py "bad key")], inr tt).
Proof.
  split; [discriminate|].
  apply (main_reports_configure_failure sample_builtins
           (world_misconfigured (py "bad key")) (py "Oslo") (py "secret")
           (py "bad key")); try reflexivity; discriminate.
Defined.

(** X11: when the request raises, the search reports "API Error:" with
    the message and stops: the response is neither parsed nor
    displayed, no warning follows, and no exception escapes. *)
Theorem main_reports_backend_failure (B : builtins) (W : world)
        (location key e : pystr) :
  location <> [] -> GEMINI_API_KEY W = Some key -> key <> [] ->
  configure_error W = None ->
  generate_content W (generate_stays_prompt location (radius W) (max_results W))
    = Raises e ->
  main B W true location =
    (search_prefix W key location ++ [api_failed e], inr tt).
Proof. apply main_backend_failure. Qed.

Lemma main_reports_backend_failure_witness :
  py "Oslo" <> [] /\
  main sample_builtins (world_raising (py "timeout")) true (py "Oslo") =
    (search_prefix (world_raising (py "timeout")) (py "secret") (py "Oslo") ++
       [api_failed (py "timeout")], inr tt).
Proof.
  split; [discriminate|].
  apply (main_reports_backend_failure sample_builtins
           (world_raising (py "timeout")) (py "Oslo") (py "secret")
           (py "timeout")); try reflexivity; discriminate.
Defined.

(** X12: an empty response text ends the search in silence: after the
    request nothing is parsed and no notice of any kind is shown. *)
Theorem main_silent_on_empty_response (B : builtins) (W : world)
        (location key : pystr) :
  location <> [] -> GEMINI_API_KEY W = Some key -> key <> [] ->
  configure_error W = None ->
  generate_content W (generate_stays_prompt location (radius W) (max_results W))
    = Text [] ->
  main B W true location = (search_prefix W key location, inr tt).
Proof. apply main_empty_response. Qed.

Lemma main_silent_on_empty_response_witness :
  py "Oslo" <> [] /\
  main sample_builtins (world_replying []) true (py "Oslo") =
    (search_prefix (world_replying []) (py "secret") (py "Oslo"), inr tt).
Proof.
  split; [discriminate|].
  apply (main_silent_on_empty_response sample_builtins (world_replying [])
           (py "Oslo") (py "secret")); try reflexivity; discriminate.
Defined.

(** X13: a response that cannot be decoded degrades to two notices,
    the error "Failed to parse AI response. Please try again." and then
    the warning "No data returned. Try a different location."; nothing
    is displayed and no exception escapes. *)
Theorem main_on_unreadable_response (B : builtins) (W : world)
        (location key text : pystr) :
  location <> [] -> GEMINI_API_KEY W = Some key -> key <> [] ->
  configure_error W = None ->
  generate_content W (generate_stays_prompt location (radius W) (max_results W))
    = Text text ->
  text <> [] ->
  json_loads (clean_text text) = inl JSONDecodeError ->
  main B W true location =
    (search_prefix W key location ++ [parse_failed; no_data], inr tt).
Proof.
  intros Hl Hk Hk' Hc Hg Ht Hj.
  rewrite (main_reply B W location key text) by assumption.
  unfold parse_stays_response. rewrite Hj. reflexivity.
Qed.

Lemma main_on_unreadable_response_witness :
  json_loads (clean_text (py "not json")) = inl JSONDecodeError /\
  main sample_builtins (world_replying (py "not json")) true (py "Oslo") =
    (search_prefix (world_replying (py "not json")) (py "secret") (py "Oslo") ++
       [parse_failed; no_data], inr tt).
Proof.
  split; [vm_compute; reflexivity|].
  apply (main_on_unreadable_response sample_builtins
           (world_replying (py "not json")) (py "Oslo") (py "secret")
           (py "not json")); try reflexivity; try discriminate.
Defined.

(** X14: a response that decodes to a falsy value (an empty array or
    object, null, false, zero, an empty string) gives the warning "No
    data returned. Try a different location." and nothing else. *)
Theorem main_on_falsy_value (B : builtins) (W : world)
        (location key text : pystr) (v : pyval) :
  location <> [] -> GEMINI_API_KEY W = Some key -> key <> [] ->
  configure_error W = None ->
  generate_content W (generate_stays_prompt location (radius W) (max_results W))
    = Text text ->
  text <> [] ->
  json_loads (clean_text text) = inr v -> truthy B v = false ->
  main B W true location = (search_prefix W key location ++ [no_data], inr tt).
Proof.
  intros Hl Hk Hk' Hc Hg Ht Hj Hv.
  rewrite (main_reply B W location key text) by assumption.
  unfold parse_stays_response. rewrite Hj. unfold bind, ret. rewrite Hv.
  reflexivity.
Qed.

Lemma main_on_falsy_value_witness :
  json_loads (clean_text (py "{}")) = inr (PyDict []) /\
  main sample_builtins (world_replying (py "{}")) true (py "Oslo") =
    (search_prefix (world_replying (py "{}")) (py "secret") (py "Oslo") ++
       [no_data], inr tt).
Proof.
  split; [vm_compute; reflexivity|].
  apply (main_on_falsy_value sample_builtins (world_replying (py "{}"))
           (py "Oslo") (py "secret") (py "{}") (PyDict []));
    try reflexivity; try discriminate.
Defined.

(** X16: an exception escapes [main] only once the backend has
    answered: whenever [main] raises, the search was launched with a
    location, the key was there, the client was configured, the
    backend returned a non-empty text, and the exception is the one
    that [parse_stays_response] raised on that text or the one that
    [display_stays] raised on the truthy value decoded from it. *)
Theorem main_raises_only_after_reply (B : builtins) (W : world)
        (search_clicked : bool) (location : pystr) (e : pyexn) :
  outcome (main B W search_clicked location) = inl e ->
  search_clicked = true /\ location <> [] /\ key_present W = true /\
  configure_error W = None /\
  exists text,
    generate_content W (generate_stays_prompt location (radius W) (max_results W))
      = Text text /\
    text <> [] /\
    (outcome (parse_stays_response text) = inl e \/
     exists v,
       outcome (parse_stays_response text) = inr v /\
       truthy B v = true /\
       outcome (display_stays B v location) = inl e).
Proof.
  main_cases B W search_clicked location; cbn [outcome snd];
    try (intro Hexn; discriminate Hexn).
  intro Hexn.
  assert (Hkey : key_present W = true).
  { unfold key_present. destruct (GEMINI_API_KEY W) as [k|]; [|discriminate].
    assert (k = key) by congruence. subst k. now destruct key. }
  repeat (split; [assumption|]).
  exists text. repeat (split; [assumption|]).
  right. exists v. repeat split; try assumption.
  unfold parse_stays_response.
  replace (json_loads (clean_text text)) with (@inr pyexn pyval v)
    by (symmetry; assumption).
  reflexivity.
Qed.

Lemma main_raises_only_after_reply_witness :
  outcome (main sample_builtins (world_replying (pyq "[{'rating':null}]"))
             true (py "Oslo")) = inl TypeError /\
  key_present (world_replying (pyq "[{'rating':null}]")) = true.
Proof.
  split; [vm_compute; reflexivity|].
  apply (main_raises_only_after_reply sample_builtins
           (world_replying (pyq "[{'rating':null}]")) true (py "Oslo") TypeError).
  vm_compute. reflexivity.
Defined.

(** X17: one run of [main] sends at most one request to the backend,
    and the request carries the prompt built from the location and the
    two sliders; the client is configured at most once. *)
Theorem main_sends_one_request_at_most (B : builtins) (W : world)
        (search_clicked : bool) (location : pystr) :
  (filter is_backend_call (trace (main B W search_clicked location)) = [] \/
   filter is_backend_call (trace (main B W search_clicked location)) =
     [GenerateContent
        (generate_stays_prompt location (radius W) (max_results W))]) /\
  (List.length (filter is_configure_call
                  (trace (main B W search_clicked location))) <= 1)%nat.
Proof.
  main_cases B W search_clicked location; cbn [trace fst];
    rewrite ?filter_app;
    try (rewrite (display_events_filter is_backend_call _
                    (display_stays_events B v location) backend_call_display));
    try (rewrite (display_events_filter is_configure_call _
                    (display_stays_events B v location) configure_call_display));
    try (destruct (nonempty location));
    split; try (left; reflexivity); try (right; reflexivity);
    cbn; lia.
Qed.

(** X18: the notice "API key not configured. Please check your .env
    file." of [configure_gemini] is never shown by [main]: its own
    credential check comes first, so that branch cannot be reached. *)
Theorem main_never_shows_unconfigured_key (B : builtins) (W : world)
        (search_clicked : bool) (location : pystr) :
  existsb (is_error (py "API key not configured. Please check your .env file."))
    (trace (main B W search_clicked location)) = false.
Proof.
  main_cases B W search_clicked location; cbn [trace fst];
    rewrite ?existsb_app;
    try (rewrite (display_events_existsb _ _
                    (display_stays_events B v location)
                    (is_error_display _)));
    try (destruct (nonempty location));
    try reflexivity;
    cbn [existsb is_error configure_failed api_failed orb];
    rewrite str_eqb_neq; try reflexivity;
    cbn; intro E; discriminate E.
Qed.

(** X19: the sidebar and the search action agree on the credential: the
    sidebar shows "API key loaded" exactly when a search that is
    started is not stopped by the notice "API key missing.". *)
Theorem sidebar_agrees_with_search (B : builtins) (D : defaults) (W : world)
        (c : char) (location : pystr) :
  existsb is_loaded_indicator (sidebar D W) =
  negb (existsb (is_error (10060 :: py " API key missing."))
          (trace (main B W true (c :: location)))).
Proof.
  unfold sidebar.
  main_cases B W true (c :: location);
    try discriminate;
    repeat match goal with
           | H : key_present W = _ |- _ => rewrite H
           | H : GEMINI_API_KEY W = Some ?k, H' : ?k <> [] |- _ =>
               assert (key_present W = true)
                 by (unfold key_present; rewrite H; now destruct k);
               clear H'
           end;
    cbn [trace fst]; rewrite ?existsb_app;
    try (rewrite (display_events_existsb _ _
                    (display_stays_events B v (c :: location))
                    (is_error_display _)));
    try reflexivity;
    cbn [existsb is_error configure_failed api_failed orb app widgets
         search_prefix spinner is_loaded_indicator key_loaded negb];
    rewrite ?str_eqb_neq; try reflexivity;
    try (cbn; intro E; discriminate E).
Qed.

(** ** The prompt determines the query *)

Module PromptFacts.

Lemma py_inj (s s' : string) : py s = py s' -> s = s'.
Proof.
  revert s'; induction s as [|a s IH]; intros [|a' s'] H; try discriminate H;
    [reflexivity|].
  simpl in H. injection H as Ha Hs.
  f_equal; [|now apply IH].
  rewrite <- (ascii_N_embedding a), <- (ascii_N_embedding a'). now rewrite Ha.
Qed.

Lemma to_int_not_nil (n : Z) :
  Z.to_int n <> Decimal.Pos Decimal.Nil /\ Z.to_int n <> Decimal.Neg Decimal.Nil.
Proof.
  destruct n as [|p|p]; simpl; split; try discriminate;
    intro H; injection H as H; now apply DecimalPos.Unsigned.to_uint_nonnil in H.
Qed.

Lemma str_of_int_inj (n n' : Z) : str_of_int n = str_of_int n' -> n = n'.
Proof.
  unfold str_of_int. intro H. apply py_inj in H.
  apply (f_equal NilZero.int_of_string) in H.
  destruct (to_int_not_nil n) as [H1 H2], (to_int_not_nil n') as [H1' H2'].
  rewrite !NilZero.isi in H by assumption.
  injection H as H. now apply DecimalZ.to_int_inj.
Qed.

Lemma uint_chars (d : Decimal.uint) (c : char) :
  In c (py (NilEmpty.string_of_uint d)) -> is_digit c = true.
Proof.
  induction d; simpl; try (intros [<-|H]; [reflexivity | now apply IHd]).
  intros [].
Qed.

(** A decimal numeral holds digits and at most a sign: no blank. *)
Lemma str_of_int_no_blank (n : Z) : ~ In 32 (str_of_int n).
Proof.
  unfold str_of_int, NilZero.string_of_int, NilZero.string_of_uint.
  intro H.
  assert (Hd : forall d, In 32 (py (match d with
                                    | Decimal.Nil => "0"%string
                                    | _ => NilEmpty.string_of_uint d
                                    end)) -> False).
  { intros d Hin. destruct d;
      try (apply uint_chars in Hin; discriminate Hin).
    simpl in Hin. destruct Hin as [Hin|[]]. discriminate Hin. }
  destruct (Z.to_int n) as [d|d].
  - now apply (Hd d).
  - simpl in H. destruct H as [H|H]; [discriminate H | now apply (Hd d)].
Qed.

Lemma split_first (x : char) (a a' r r' : pystr) :
  ~ In x a -> ~ In x a' -> a ++ x :: r = a' ++ x :: r' -> a = a' /\ r = r'.
Proof.
  revert a'; induction a as [|y a IH]; intros [|y' a'] Ha Ha' H; simpl in H.
  - injection H as ->. now split.
  - injection H as -> _. exfalso; apply Ha'; now left.
  - injection H as -> _. exfalso; apply Ha; now left.
  - injection H as -> H.
    destruct (IH a') as [-> ->]; try assumption; [| |now split];
      intro Hin; [apply Ha | apply Ha']; now right.
Qed.

Lemma split_last (x : char) (a a' r r' : pystr) :
  ~ In x r -> ~ In x r' -> a ++ x :: r = a' ++ x :: r' -> a = a' /\ r = r'.
Proof.
  intros Hr Hr' H. apply (f_equal (@rev char)) in H.
  rewrite !rev_app_distr in H. simpl in H. rewrite <- !app_assoc in H.
  simpl in H.
  apply split_first in H as [H1 H2];
    try (intro Hin; apply in_rev in Hin; contradiction).
  split.
  - rewrite <- (rev_involutive a), <- (rev_involutive a'). now rewrite H2.
  - rewrite <- (rev_involutive r), <- (rev_involutive r'). now rewrite H1.
Qed.

End PromptFacts.
Import PromptFacts.

(** X20: the prompt determines the query: two calls of
    [generate_stays_prompt] that return the same text were given the
    same location, the same radius and the same number of results. *)
Theorem generate_stays_prompt_injective
        (location location' : pystr) (radius radius' results results' : Z) :
  generate_stays_prompt location radius results =
  generate_stays_prompt location' radius' results' ->
  location = location' /\ radius = radius' /\ results = results'.
Proof.
  unfold generate_stays_prompt. intro H.
  apply app_inv_head in H. apply app_inv_head in H.
  assert (H1 : str_of_int results ++
               32 :: (py "accommodation options around " ++ [dq] ++ location ++
                      [dq] ++ py " within " ++ str_of_int radius ++
                      py " km." ++ nl ++ prompt_tail) =
               str_of_int results' ++
               32 :: (py "accommodation options around " ++ [dq] ++ location' ++
                      [dq] ++ py " within " ++ str_of_int radius' ++
                      py " km." ++ nl ++ prompt_tail)) by exact H.
  apply split_first in H1 as [Hm H1]; try apply str_of_int_no_blank.
  apply app_inv_head in H1. apply app_inv_head in H1.
  assert (H2 : (location ++ [dq] ++ py " within" ++ 32 :: str_of_int radius) ++
               (py " km." ++ nl ++ prompt_tail) =
               (location' ++ [dq] ++ py " within" ++ 32 :: str_of_int radius') ++
               (py " km." ++ nl ++ prompt_tail)).
  { rewrite <- (app_assoc location), <- (app_assoc location'). exact H1. }
  apply app_inv_tail in H2.
  assert (H3 : (location ++ [dq] ++ py " within") ++ 32 :: str_of_int radius =
               (location' ++ [dq] ++ py " within") ++ 32 :: str_of_int radius').
  { rewrite <- (app_assoc location), <- (app_assoc location'). exact H2. }
  apply split_last in H3 as [Hl Hr]; try apply str_of_int_no_blank.
  apply app_inv_tail in Hl.
  repeat split; [exact Hl | now apply str_of_int_inj | now apply str_of_int_inj].
Qed.

Lemma generate_stays_prompt_injective_witness :
  generate_stays_prompt (py "Oslo") 10 8 = generate_stays_prompt (py "Oslo") 10 8 /\
  py "Oslo" = py "Oslo" /\ 10%Z = 10%Z /\ 8%Z = 8%Z.
Proof.
  split; [reflexivity|].
  apply (generate_stays_prompt_injective (py "Oslo") (py "Oslo") 10 10 8 8).
  reflexivity.
Defined.

(** ** What the first step removes, and what it keeps *)

Module MarkerFacts.

(** The test of the scan fails at this place. *)
Ltac no_marker_here H :=
  match goal with
  | |- context [if ?b then _ else _] =>
      replace b with false by (symmetry; exact H)
  end.

Lemma startswith_other (old s : pystr) (c : char) :
  (c =? 96) = false -> startswith (96 :: old) (c :: s) = false.
Proof. intro H. cbn [startswith]. now rewrite N.eqb_sym, H. Qed.

Lemma startswith_no_backtick_head (old q : pystr) :
  no_backtick_head q = true -> startswith (96 :: old) q = false.
Proof.
  destruct q as [|c q]; [reflexivity|]. cbn [no_backtick_head]. intro H.
  apply startswith_other. now apply negb_true_iff.
Qed.

Section Marker.
Variable old : pystr.

(** A character other than a backtick starts no marker. *)
Lemma replace_other (c : char) (s : pystr) :
  (c =? 96) = false ->
  replace_from (96 :: old) [] O (c :: s) =
  c :: replace_from (96 :: old) [] O s.
Proof.
  intro H. rewrite replace_from_cons by discriminate.
  now rewrite startswith_other.
Qed.

Lemma replace_backtick_free (p s : pystr) :
  backtick_free p = true ->
  replace_from (96 :: old) [] O (p ++ s) =
  p ++ replace_from (96 :: old) [] O s.
Proof.
  induction p as [|c p IH]; [reflexivity|]. intro H.
  unfold backtick_free in H. cbn [forallb] in H.
  apply andb_true_iff in H as [Hc Hp]. apply negb_true_iff in Hc.
  rewrite <- app_comm_cons, (replace_other c (p ++ s) Hc), (IH Hp).
  reflexivity.
Qed.

Lemma replace_keeps_head (q : pystr) :
  no_backtick_head q = true ->
  no_backtick_head (replace_from (96 :: old) [] O q) = true.
Proof.
  destruct q as [|c q]; [reflexivity|]. cbn [no_backtick_head]. intro H.
  rewrite replace_other by (now apply negb_true_iff). exact H.
Qed.

End Marker.

Lemma remove_open_backtick_free (p s : pystr) :
  backtick_free p = true ->
  replace fence_open [] (p ++ s) = p ++ replace fence_open [] s.
Proof. exact (replace_backtick_free [96; 96; 106; 115; 111; 110] p s). Qed.

Lemma remove_close_backtick_free (p s : pystr) :
  backtick_free p = true ->
  replace fence_close [] (p ++ s) = p ++ replace fence_close [] s.
Proof. exact (replace_backtick_free [96; 96] p s). Qed.

Lemma remove_open_keeps_head (q : pystr) :
  no_backtick_head q = true ->
  no_backtick_head (replace fence_open [] q) = true.
Proof. exact (replace_keeps_head [96; 96; 106; 115; 111; 110] q). Qed.

(** No opening marker starts inside a run of backticks, unless the run
    has three of them at least and the word [json] follows. *)
Lemma open_not_in_run (k : nat) (q : pystr) :
  no_backtick_head q = true ->
  (k < 3)%nat \/ startswith (py "json") q = false ->
  startswith fence_open (repeat 96 k ++ q) = false.
Proof.
  intros Hq Hk. destruct k as [|[|[|[|k]]]].
  - exact (startswith_no_backtick_head [96; 96; 106; 115; 111; 110] q Hq).
  - exact (startswith_no_backtick_head [96; 106; 115; 111; 110] q Hq).
  - exact (startswith_no_backtick_head [106; 115; 111; 110] q Hq).
  - destruct Hk as [Hk|Hk]; [lia | exact Hk].
  - reflexivity.
Qed.

Lemma remove_open_run (k : nat) (q : pystr) :
  no_backtick_head q = true ->
  (k < 3)%nat \/ startswith (py "json") q = false ->
  replace fence_open [] (repeat 96 k ++ q) =
  repeat 96 k ++ replace fence_open [] q.
Proof.
  intros Hq Hk. rewrite !replace_fence_open.
  induction k as [|k IH]; [reflexivity|].
  cbn [repeat app]. rewrite (replace_from_cons _ _ fence_open_nonempty).
  no_marker_here (open_not_in_run (S k) q Hq Hk).
  rewrite IH; [reflexivity|].
  destruct Hk as [Hk|Hk]; [left; lia | now right].
Qed.

Lemma remove_close_head (r : pystr) :
  replace fence_close [] (fence_close ++ r) = replace fence_close [] r.
Proof.
  rewrite !replace_fence_close.
  change (fence_close ++ r) with (96 :: 96 :: 96 :: r).
  rewrite (replace_from_cons _ _ fence_close_nonempty). reflexivity.
Qed.

Lemma remove_close_run_div (m r : nat) (q : pystr) :
  no_backtick_head q = true -> (r < 3)%nat ->
  replace fence_close [] (repeat 96 (3 * m + r) ++ q) =
  repeat 96 r ++ replace fence_close [] q.
Proof.
  intros Hq Hr. induction m as [|m IH].
  - change (3 * 0 + r)%nat with r. rewrite !replace_fence_close.
    destruct r as [|[|[|r]]]; try lia.
    + reflexivity.
    + cbn [repeat app].
      rewrite (replace_from_cons _ _ fence_close_nonempty).
      no_marker_here (startswith_no_backtick_head [96] q Hq).
      reflexivity.
    + cbn [repeat app].
      rewrite (replace_from_cons _ _ fence_close_nonempty).
      no_marker_here (startswith_no_backtick_head [] q Hq).
      rewrite (replace_from_cons _ _ fence_close_nonempty).
      no_marker_here (startswith_no_backtick_head [96] q Hq).
      reflexivity.
  - replace (3 * S m + r)%nat with (S (S (S (3 * m + r)))) by lia.
    cbn [repeat app].
    change (96 :: 96 :: 96 :: repeat 96 (3 * m + r) ++ q)
      with (fence_close ++ repeat 96 (3 * m + r) ++ q).
    rewrite remove_close_head. exact IH.
Qed.

(** Of a run of backticks the closing marker is removed as often as it
    fits: what is left of [k] backticks is [k mod 3] of them. *)
Lemma remove_close_run (k : nat) (q : pystr) :
  no_backtick_head q = true ->
  replace fence_close [] (repeat 96 k ++ q) =
  repeat 96 (k mod 3) ++ replace fence_close [] q.
Proof.
  intro Hq.
  pose proof (Nat.div_mod_eq k 3) as E.
  assert (Hr : (k mod 3 < 3)%nat) by (apply Nat.mod_upper_bound; lia).
  revert E Hr. generalize (k mod 3)%nat as r, (k / 3)%nat as m.
  intros r m E Hr. rewrite E at 1. now apply remove_close_run_div.
Qed.

Lemma strip_fences_open_marker (p q : pystr) :
  backtick_free p = true ->
  strip_fences (p ++ fence_open ++ q) = p ++ strip_fences q.
Proof.
  intro Hp. unfold strip_fences.
  rewrite (remove_open_backtick_free p _ Hp), remove_open_head.
  now apply remove_close_backtick_free.
Qed.

Lemma strip_fences_run (p : pystr) (k : nat) (q : pystr) :
  backtick_free p = true -> no_backtick_head q = true ->
  (k < 3)%nat \/ startswith (py "json") q = false ->
  strip_fences (p ++ repeat 96 k ++ q) =
  p ++ repeat 96 (k mod 3) ++ strip_fences q.
Proof.
  intros Hp Hq Hk. unfold strip_fences.
  rewrite (remove_open_backtick_free p _ Hp), (remove_open_run k q Hq Hk).
  rewrite (remove_close_backtick_free p _ Hp).
  now rewrite (remove_close_run k _ (remove_open_keeps_head q Hq)).
Qed.

Lemma plain_string_chars (t : pystr) :
  forallb plain_char t = true ->
  forallb string_char t = true /\ backtick_free t = true.
Proof.
  unfold backtick_free. induction t as [|c t IH]; [now split|].
  cbn [forallb]. intro H. apply andb_true_iff in H as [Hc Ht].
  unfold plain_char in Hc. apply andb_true_iff in Hc as [Hs Hb].
  destruct (IH Ht) as [IH1 IH2]. now rewrite Hs, Hb, IH1, IH2.
Qed.

Lemma backtick_free_app (a b : pystr) :
  backtick_free a = true -> backtick_free b = true ->
  backtick_free (a ++ b) = true.
Proof.
  unfold backtick_free. intros Ha Hb. rewrite forallb_app.
  apply andb_true_iff. now split.
Qed.

Lemma backtick_free_absent (t : pystr) :
  backtick_free t = true -> occurs fence_close t = false.
Proof.
  induction t as [|c t IH]; [reflexivity|]. intro H.
  unfold backtick_free in H. cbn [forallb] in H.
  apply andb_true_iff in H as [Hc Ht]. apply negb_true_iff in Hc.
  cbn [occurs]. rewrite (IH Ht), orb_false_r.
  exact (startswith_other [96; 96] t c Hc).
Qed.

Lemma strip_bracketed (c d : char) (m : pystr) :
  isspace c = false -> isspace d = false ->
  strip (c :: m ++ [d]) = c :: m ++ [d].
Proof.
  intros Hc Hd. unfold strip. cbn [lstrip]. rewrite Hc.
  unfold rstrip.
  replace (rev (c :: m ++ [d])) with (d :: rev m ++ [c])
    by (cbn [rev]; now rewrite rev_app_distr).
  cbn [lstrip]. rewrite Hd. cbn [rev].
  now rewrite rev_app_distr, rev_involutive.
Qed.

(** The scanner reads a string of characters that stand for themselves
    as it is written. *)
Lemma scanstring_plain (t r : pystr) :
  forallb string_char t = true -> scanstring (t ++ 34 :: r) = Some (t, r).
Proof.
  induction t as [|c t IH]; [reflexivity|]. intro H.
  cbn [forallb] in H. apply andb_true_iff in H as [Hc Ht].
  unfold string_char in Hc. apply andb_true_iff in Hc as [Hc H92].
  apply andb_true_iff in Hc as [H32 H34].
  apply negb_true_iff in H34, H92. apply N.leb_le in H32.
  rewrite <- app_comm_cons. cbn [scanstring]. rewrite H34, H92.
  replace (c <=? 31) with false by (symmetry; apply N.leb_gt; lia).
  now rewrite (IH Ht).
Qed.

Lemma scan_string_array (f : nat) (t : pystr) :
  forallb string_char t = true ->
  scan_once (S (S (S f))) (91 :: 34 :: t ++ [34; 93]) =
  Scanned (PyList [PyStr t]) [].
Proof.
  intro H. pose proof (scanstring_plain t [93] H) as E.
  cbn [scan_once array_items N.eqb Pos.eqb skip_ws is_ws orb].
  rewrite E. reflexivity.
Qed.

Lemma json_loads_string_array (t : pystr) :
  forallb string_char t = true ->
  json_loads (string_array t) = inr (PyList [PyStr t]).
Proof.
  intro H. unfold json_loads, string_array.
  change (pyq "['" ++ t ++ pyq "']") with (91 :: 34 :: t ++ [34; 93]).
  change (startswith [65279] (91 :: 34 :: t ++ [34; 93])) with false.
  change (skip_ws (91 :: 34 :: t ++ [34; 93])) with (91 :: 34 :: t ++ [34; 93]).
  match goal with
  | |- context [scan_once ?fuel _] =>
      assert (E : exists f, fuel = S (S (S f)))
  end.
  { exists (2 * List.length t + 6)%nat.
    cbn [List.length]. rewrite length_app. cbn [List.length]. lia. }
  destruct E as [f ->]. now rewrite (scan_string_array f t H).
Qed.

Lemma strip_string_array (t : pystr) : strip (string_array t) = string_array t.
Proof.
  unfold string_array.
  change (pyq "['" ++ t ++ pyq "']") with (91 :: 34 :: t ++ [34] ++ [93]).
  rewrite app_assoc, app_comm_cons. now apply strip_bracketed.
Qed.

(** A text that the first step turns into an array of one string is
    decoded as that string. *)
Lemma parse_string_array (s t : pystr) :
  forallb string_char t = true ->
  strip_fences s = string_array t ->
  parse_stays_response s = ([], inr (PyList [PyStr t])).
Proof.
  intros Ht Hs. unfold parse_stays_response, clean_text.
  now rewrite Hs, strip_string_array, (json_loads_string_array t Ht).
Qed.

Lemma string_array_parts (a m b : pystr) :
  string_array (a ++ m ++ b) = (pyq "['" ++ a) ++ m ++ (b ++ pyq "']").
Proof. unfold string_array. now rewrite <- !app_assoc. Qed.

Lemma string_array_tail (b : pystr) :
  forallb plain_char b = true ->
  no_backtick_head (b ++ pyq "']") = true /\
  strip_fences (b ++ pyq "']") = b ++ pyq "']" /\
  startswith (py "json") (b ++ pyq "']") = startswith (py "json") b.
Proof.
  intro Hb. destruct (plain_string_chars b Hb) as [_ Hf]. repeat split.
  - destruct b as [|c b]; [reflexivity|].
    unfold backtick_free in Hf. cbn [forallb] in Hf.
    now apply andb_true_iff in Hf as [Hc _].
  - apply strip_fences_absent, backtick_free_absent.
    now apply backtick_free_app.
  - apply (startswith_app_last 0); [discriminate|].
    intros [H|[H|[]]]; discriminate H.
Qed.

Lemma string_array_head (a : pystr) :
  forallb plain_char a = true -> backtick_free (pyq "['" ++ a) = true.
Proof.
  intro Ha. destruct (plain_string_chars a Ha) as [_ Hf].
  now apply backtick_free_app.
Qed.

Lemma string_chars_app (a b : pystr) :
  forallb string_char a = true -> forallb string_char b = true ->
  forallb string_char (a ++ b) = true.
Proof.
  intros Ha Hb. rewrite forallb_app. apply andb_true_iff. now split.
Qed.

Lemma string_chars_backticks (k : nat) :
  forallb string_char (repeat 96 k) = true.
Proof.
  induction k as [|k IH]; [reflexivity|]. cbn [repeat forallb].
  now rewrite IH.
Qed.

End MarkerFacts.
Import MarkerFacts.

(** ** The removal of the markers, as the code does it *)

(** C4, as stated, fails: in [["a```b"]] the marker occurs only inside
    a JSON string value, yet the first step removes it and the decoded
    string is [ab]. *)
Lemma C4_interior_marker_is_removed :
  startswith fence_open (pyq "['a```b']") = false /\
  strip_fences (pyq "['a```b']") = pyq "['ab']" /\
  strip_fences (pyq "['a```b']") <> pyq "['a```b']" /\
  parse_stays_response (pyq "['a```b']") = ([], inr (PyList [PyStr (py "ab")])).
Proof.
  repeat split; try (vm_compute; reflexivity).
  vm_compute. discriminate.
Qed.

(** C4, amended: the first step removes every occurrence of the opening
    marker and then every occurrence of the closing marker, wherever
    they are, and nothing else, before the text is trimmed and decoded.

    - Neither the text after the first step nor the text handed to the
      decoder contains three backticks in a row, and a text without
      three backticks in a row is left as it is (the absence of a fence
      is tolerated).
    - An opening marker that follows a text [p] without backticks is
      removed, whatever comes after it: [p] is kept and the rest [q] is
      treated in the same way.
    - Of a run of [k] backticks that follows a text [p] without
      backticks, [k mod 3] are left (none of a closing marker, all of
      one or two backticks), provided the rest [q] does not start with
      a backtick, nor with the word [json] when the run has three of
      them or more; [p] is kept and [q] is treated in the same way.
    - So a marker inside a JSON string value does not survive into the
      decoded result, while the characters around it do: the array
      written with [a], an opening marker and [b] between the quotes
      decodes to the one string [a ++ b], and with a run of [k]
      backticks in place of the marker to the string that keeps
      [k mod 3] of them. *)
Theorem C4_every_marker_is_removed (s : pystr) :
  occurs fence_close (strip_fences s) = false /\
  occurs fence_open (strip_fences s) = false /\
  occurs fence_close (clean_text s) = false /\
  (occurs fence_close s = false -> strip_fences s = s) /\
  (forall p q : pystr,
      backtick_free p = true ->
      strip_fences (p ++ fence_open ++ q) = p ++ strip_fences q) /\
  (forall (p : pystr) (k : nat) (q : pystr),
      backtick_free p = true -> no_backtick_head q = true ->
      (k < 3)%nat \/ startswith (py "json") q = false ->
      strip_fences (p ++ repeat 96 k ++ q) =
      p ++ repeat 96 (k mod 3) ++ strip_fences q) /\
  (forall a b : pystr,
      forallb plain_char a = true -> forallb plain_char b = true ->
      parse_stays_response (string_array (a ++ fence_open ++ b)) =
      ([], inr (PyList [PyStr (a ++ b)]))) /\
  (forall (a : pystr) (k : nat) (b : pystr),
      forallb plain_char a = true -> forallb plain_char b = true ->
      (k < 3)%nat \/ startswith (py "json") b = false ->
      parse_stays_response (string_array (a ++ repeat 96 k ++ b)) =
      ([], inr (PyList [PyStr (a ++ repeat 96 (k mod 3) ++ b)]))).
Proof.
  assert (H1 : occurs fence_close (strip_fences s) = false)
    by apply no_close_after_replace.
  split; [exact H1|]. split.
  { destruct (occurs fence_open (strip_fences s)) eqn:E; [|reflexivity].
    apply occurs_open_close in E. congruence. }
  split.
  { destruct (occurs fence_close (clean_text s)) eqn:E; [|reflexivity].
    apply occurs_strip in E. congruence. }
  split; [apply strip_fences_absent|].
  split; [intros p q; apply strip_fences_open_marker|].
  split; [intros p k q; apply strip_fences_run|].
  split.
  - intros a b Ha Hb.
    destruct (plain_string_chars a Ha) as [Sa _].
    destruct (plain_string_chars b Hb) as [Sb _].
    apply parse_string_array; [now apply string_chars_app|].
    rewrite (string_array_parts a fence_open b).
    rewrite strip_fences_open_marker by (now apply string_array_head).
    destruct (string_array_tail b Hb) as (_ & E & _). rewrite E.
    unfold string_array. now rewrite <- !app_assoc.
  - intros a k b Ha Hb Hk.
    destruct (plain_string_chars a Ha) as [Sa _].
    destruct (plain_string_chars b Hb) as [Sb _].
    destruct (string_array_tail b Hb) as (Hh & E & Hj).
    apply parse_string_array.
    { apply string_chars_app; [exact Sa|].
      apply string_chars_app; [apply string_chars_backticks | exact Sb]. }
    rewrite string_array_parts.
    rewrite strip_fences_run;
      [| now apply string_array_head | exact Hh
       | destruct Hk as [Hk|Hk]; [now left | right; now rewrite Hj]].
    rewrite E. unfold string_array. now rewrite <- !app_assoc.
Qed.

Lemma C4_every_marker_is_removed_witness :
  occurs fence_close (pyq "[{'name':'Inn A'}]") = false /\
  strip_fences (pyq "[{'name':'Inn A'}]") = pyq "[{'name':'Inn A'}]" /\
  backtick_free (pyq "[{'name':'") = true /\
  strip_fences (pyq "[{'name':'" ++ fence_open ++ pyq "Inn A'}]") =
    pyq "[{'name':'" ++ strip_fences (pyq "Inn A'}]") /\
  no_backtick_head (pyq "Inn A'}]") = true /\
  strip_fences (pyq "[{'name':'" ++ repeat 96 4%nat ++ pyq "Inn A'}]") =
    pyq "[{'name':'" ++ repeat 96 (4 mod 3)%nat ++ strip_fences (pyq "Inn A'}]") /\
  forallb plain_char (py "Inn ") = true /\
  forallb plain_char (py "A") = true /\
  parse_stays_response (string_array (py "Inn " ++ fence_open ++ py "A")) =
    ([], inr (PyList [PyStr (py "Inn " ++ py "A")])) /\
  parse_stays_response (string_array (py "Inn " ++ repeat 96 3%nat ++ py "A")) =
    ([], inr (PyList [PyStr (py "Inn " ++ repeat 96 (3 mod 3)%nat ++ py "A")])).
Proof.
  destruct (C4_every_marker_is_removed (pyq "[{'name':'Inn A'}]"))
    as (_ & _ & _ & Habsent & Hopen & Hrun & Hdecode & Hdecode_run).
  split; [reflexivity|].
  split; [apply Habsent; reflexivity|].
  split; [reflexivity|].
  split; [apply Hopen; reflexivity|].
  split; [reflexivity|].
  split; [apply Hrun; [reflexivity | reflexivity | right; reflexivity]|].
  split; [reflexivity|].
  split; [reflexivity|].
  split; [apply Hdecode; reflexivity|].
  apply Hdecode_run; [reflexivity | reflexivity | right; reflexivity].
Defined.
